(** * talk-sync-world: row-level security policies and chat client operations

    The development follows the repository's layout:

    - the tables of the first migration ([profiles], [conversations],
      [conversation_participants], [messages]);
    - the row-level security policies of the three migrations, applied in the
      order of their timestamps, and the [SECURITY DEFINER] helpers of
      [20250814195648_raspy_spark.sql];
    - the policy evaluation of the database for sub-selects that occur inside
      a policy;
    - the provisioning trigger [handle_new_user];
    - the client operations [sendMessage], [createConversation] and
      [fetchMessages] of the React components. *)

From Stdlib Require Import Arith NArith List String Ascii Bool Lia.
From Stdlib Require Import Sorted Permutation.
Import ListNotations.

Local Open Scope N_scope.
Local Open Scope string_scope.
Local Open Scope list_scope.

(** ** Values *)

(** A [UUID] value; only equality of identifiers is ever used. *)
Definition uuid := N.

(** [TIMESTAMP WITH TIME ZONE], as a count of clock ticks. *)
Definition timestamp := N.

(** A JavaScript string is a sequence of UTF-16 code units; [TEXT] columns
    written by the client hold such strings. *)
Definition jsstring := list N.

(** [auth.uid()]: the identifier of the calling principal, [None] (SQL NULL)
    for a caller without a session. *)
Definition auth_uid := option uuid.

(** SQL [a = b] used as a condition: a comparison with NULL is not true. *)
Definition sql_eq (a b : option uuid) : bool :=
  match a, b with
  | Some x, Some y => N.eqb x y
  | _, _ => false
  end.

(** ** Errors and results *)

Inductive error : Type :=
| policy_recursion        (* policy evaluation re-entered itself without end *)
| row_security_violation  (* new row violates row-level security policy *)
| unique_violation        (* duplicate key value violates unique constraint *)
| not_null_violation      (* null value in a NOT NULL column *)
| foreign_key_violation   (* referenced row does not exist *)
| duplicate_object.       (* CREATE POLICY on a name that exists *)

Inductive result (A : Type) : Type :=
| Ok (a : A)
| Err (e : error).
Arguments Ok {A} a.
Arguments Err {A} e.

Definition rbind {A B : Type} (r : result A) (f : A -> result B) : result B :=
  match r with
  | Ok a => f a
  | Err e => Err e
  end.

Declare Scope result_scope.
Delimit Scope result_scope with result.
Notation "x <- r ;; k" := (rbind r (fun x => k))
  (at level 100, r at next level, right associativity) : result_scope.
Local Open Scope result_scope.

(** ** Tables (first migration) *)

Module profiles.
Record row : Type := mk {
  id : uuid;                        (* PRIMARY KEY, REFERENCES auth.users *)
  username : string;                (* UNIQUE NOT NULL *)
  display_name : option string;
  avatar_url : option string;
  status : option string;           (* DEFAULT 'online' *)
  last_seen : option timestamp;     (* DEFAULT now() *)
  created_at : timestamp;
  updated_at : timestamp
}.
End profiles.

Inductive conversation_type : Type := dm | group.
(* CHECK (type IN ('dm', 'group')) *)

Module conversations.
Record row : Type := mk {
  id : uuid;
  name : option string;             (* null for DMs *)
  type : conversation_type;         (* NOT NULL DEFAULT 'dm' *)
  created_by : option uuid;         (* REFERENCES profiles(id), nullable *)
  created_at : timestamp;
  updated_at : timestamp
}.
End conversations.

Module conversation_participants.
Record row : Type := mk {
  id : uuid;
  conversation_id : uuid;           (* NOT NULL *)
  user_id : uuid;                   (* NOT NULL *)
  joined_at : timestamp
}.
End conversation_participants.

Inductive message_type : Type := text | image | file.
(* CHECK (type IN ('text', 'image', 'file')) *)

Module messages.
Record row : Type := mk {
  id : uuid;
  conversation_id : uuid;           (* NOT NULL *)
  sender_id : uuid;                 (* NOT NULL *)
  content : jsstring;               (* NOT NULL *)
  type : option message_type;       (* DEFAULT 'text' *)
  created_at : timestamp;
  edited_at : option timestamp;
  is_deleted : option bool          (* BOOLEAN DEFAULT false, nullable *)
}.
End messages.

Module cp := conversation_participants.

(** The Entity Store: the four tables, each in row order. *)
Record Store : Type := mkStore {
  tbl_profiles : list profiles.row;
  tbl_conversations : list conversations.row;
  tbl_conversation_participants : list cp.row;
  tbl_messages : list messages.row
}.

(** What the design calls "P is a Participant of conversation C". *)
Definition is_participant (s : Store) (p c : uuid) : bool :=
  existsb (fun r => N.eqb (cp.conversation_id r) c && N.eqb (cp.user_id r) p)
          (tbl_conversation_participants s).

(** "P is the creator of conversation C". *)
Definition is_creator (s : Store) (p c : uuid) : bool :=
  existsb (fun r => N.eqb (conversations.id r) c
                    && sql_eq (conversations.created_by r) (Some p))
          (tbl_conversations s).

(** ** Row-level security *)

(** What a sub-select [SELECT ... FROM t] placed inside a policy gets to see
    of each table.  All four tables have row-level security enabled, so the
    rows are those that the table's own SELECT policies let the caller see;
    computing them can itself fail. *)
Record Views : Type := mkViews {
  v_profiles : result (list profiles.row);
  v_conversations : result (list conversations.row);
  v_conversation_participants : result (list cp.row);
  v_messages : result (list messages.row)
}.

Inductive command : Type := SELECT | INSERT | UPDATE.

Definition command_eqb (a b : command) : bool :=
  match a, b with
  | SELECT, SELECT | INSERT, INSERT | UPDATE, UPDATE => true
  | _, _ => false
  end.

(** [TO authenticated] restricts a policy to callers with a session; a policy
    without a [TO] clause applies to every role. *)
Inductive roles : Type := to_public | to_authenticated.

(** The USING / WITH CHECK expression of a policy.  PostgreSQL expands the
    sub-selects of the expression, and with them the policies of the tables
    they read, when it rewrites the statement: before it looks at a row, and
    whatever the other operands of an [AND] or [OR] are.  So an expression is
    given in two steps: first what its sub-selects return (from the raw store
    for a [SECURITY DEFINER] function, from the views otherwise), which can
    fail; then the condition on the row at hand. *)
Definition qual (R : Type) : Type :=
  Store -> Views -> auth_uid -> result (R -> bool).

Record policy (R : Type) : Type := mkPolicy {
  pol_name : string;
  pol_cmd : command;
  pol_roles : roles;
  pol_qual : qual R
}.
Arguments mkPolicy {R} _ _ _ _.
Arguments pol_name {R} _.
Arguments pol_cmd {R} _.
Arguments pol_roles {R} _.
Arguments pol_qual {R} _.

Record Catalog : Type := mkCatalog {
  on_profiles : list (policy profiles.row);
  on_conversations : list (policy conversations.row);
  on_conversation_participants : list (policy cp.row);
  on_messages : list (policy messages.row)
}.

Definition role_applies (r : roles) (uid : auth_uid) : bool :=
  match r, uid with
  | to_public, _ => true
  | to_authenticated, Some _ => true
  | to_authenticated, None => false
  end.

Definition applicable {R : Type} (cmd : command) (uid : auth_uid)
  (ps : list (policy R)) : list (policy R) :=
  filter (fun p => command_eqb (pol_cmd p) cmd && role_applies (pol_roles p) uid) ps.

(** The applicable policies of a table are permissive: a row passes when one
    of them holds.  With no applicable policy nothing passes.  Every
    applicable policy is expanded, also when another one lets the row pass. *)
Fixpoint permissive_or {R : Type} (ps : list (policy R))
  (s : Store) (v : Views) (uid : auth_uid) : result (R -> bool) :=
  match ps with
  | [] => Ok (fun _ => false)
  | p :: ps' =>
      holds <- pol_qual p s v uid ;;
      others <- permissive_or ps' s v uid ;;
      Ok (fun r => holds r || others r)
  end.

Definition row_security {R : Type} (cmd : command) (ps : list (policy R)) : qual R :=
  fun s v uid => permissive_or (applicable cmd uid ps) s v uid.

(** The rows of a table that pass its row security, in table order; no row
    is needed for the expansion to fail. *)
Definition visible_rows {R : Type} (security : result (R -> bool)) (rows : list R)
  : result (list R) :=
  passes <- security ;; Ok (filter passes rows).

Definition no_views : Views :=
  mkViews (Err policy_recursion) (Err policy_recursion)
          (Err policy_recursion) (Err policy_recursion).

(** The rows of each table visible to [uid].  The SELECT policies of a table
    are expanded, their sub-selects being answered by the same procedure one
    level down, and the table is filtered by the condition obtained.  [fuel]
    bounds the nesting: policies whose sub-selects lead back to a table
    already being expanded use up any amount of it, whatever the tables
    hold, and PostgreSQL aborts the statement with "infinite recursion
    detected in policy for relation" (SQLSTATE 42P17). *)
Fixpoint rls_views (fuel : nat) (cat : Catalog) (s : Store) (uid : auth_uid) : Views :=
  match fuel with
  | O => no_views
  | S n =>
      let inner := rls_views n cat s uid in
      mkViews
        (visible_rows (row_security SELECT (on_profiles cat) s inner uid)
                      (tbl_profiles s))
        (visible_rows (row_security SELECT (on_conversations cat) s inner uid)
                      (tbl_conversations s))
        (visible_rows (row_security SELECT (on_conversation_participants cat) s inner uid)
                      (tbl_conversation_participants s))
        (visible_rows (row_security SELECT (on_messages cat) s inner uid)
                      (tbl_messages s))
  end.

(** [read(P, table)]: the rows a top-level SELECT returns. *)
Definition read_profiles fuel cat s uid := v_profiles (rls_views fuel cat s uid).
Definition read_conversations fuel cat s uid := v_conversations (rls_views fuel cat s uid).
Definition read_participants fuel cat s uid :=
  v_conversation_participants (rls_views fuel cat s uid).
Definition read_messages fuel cat s uid := v_messages (rls_views fuel cat s uid).

(** The WITH CHECK decision on a candidate row: [Ok true] is ALLOW,
    [Ok false] is DENY, an error is the statement aborted before any
    decision.  Sub-selects of the check read the views. *)
Definition check_insert {R : Type} (ps : list (policy R))
  (fuel : nat) (cat : Catalog) (s : Store) (uid : auth_uid) (r : R) : result bool :=
  passes <- row_security INSERT ps s (rls_views fuel cat s uid) uid ;;
  Ok (passes r).

Definition check_insert_participant fuel cat :=
  check_insert (on_conversation_participants cat) fuel cat.
Definition check_insert_message fuel cat :=
  check_insert (on_messages cat) fuel cat.

(** ** Policy statements of the migrations *)

Definition statement := Catalog -> result Catalog.

Fixpoint run_statements (sts : list statement) (cat : Catalog) : result Catalog :=
  match sts with
  | [] => Ok cat
  | st :: sts' => cat' <- st cat ;; run_statements sts' cat'
  end.

(** [DROP POLICY IF EXISTS name ON table] *)
Definition drop_policy {R : Type} (name : string) (ps : list (policy R)) : list (policy R) :=
  filter (fun p => negb (String.eqb (pol_name p) name)) ps.

(** [CREATE POLICY name ON table ...] fails when the table has the name. *)
Definition create_policy {R : Type} (p : policy R) (ps : list (policy R))
  : result (list (policy R)) :=
  if existsb (fun q => String.eqb (pol_name q) (pol_name p)) ps
  then Err duplicate_object
  else Ok (ps ++ [p]).

Definition drop_on_profiles (name : string) : statement := fun cat =>
  Ok (mkCatalog (drop_policy name (on_profiles cat)) (on_conversations cat)
                (on_conversation_participants cat) (on_messages cat)).
Definition drop_on_conversations (name : string) : statement := fun cat =>
  Ok (mkCatalog (on_profiles cat) (drop_policy name (on_conversations cat))
                (on_conversation_participants cat) (on_messages cat)).
Definition drop_on_conversation_participants (name : string) : statement := fun cat =>
  Ok (mkCatalog (on_profiles cat) (on_conversations cat)
                (drop_policy name (on_conversation_participants cat)) (on_messages cat)).
Definition drop_on_messages (name : string) : statement := fun cat =>
  Ok (mkCatalog (on_profiles cat) (on_conversations cat)
                (on_conversation_participants cat) (drop_policy name (on_messages cat))).

Definition create_on_profiles (p : policy profiles.row) : statement := fun cat =>
  ps <- create_policy p (on_profiles cat) ;;
  Ok (mkCatalog ps (on_conversations cat) (on_conversation_participants cat) (on_messages cat)).
Definition create_on_conversations (p : policy conversations.row) : statement := fun cat =>
  ps <- create_policy p (on_conversations cat) ;;
  Ok (mkCatalog (on_profiles cat) ps (on_conversation_participants cat) (on_messages cat)).
Definition create_on_conversation_participants (p : policy cp.row) : statement := fun cat =>
  ps <- create_policy p (on_conversation_participants cat) ;;
  Ok (mkCatalog (on_profiles cat) (on_conversations cat) ps (on_messages cat)).
Definition create_on_messages (p : policy messages.row) : statement := fun cat =>
  ps <- create_policy p (on_messages cat) ;;
  Ok (mkCatalog (on_profiles cat) (on_conversations cat) (on_conversation_participants cat) ps).

Definition empty_catalog : Catalog := mkCatalog [] [] [] [].

(** [SELECT conversation_id FROM conversation_participants WHERE user_id = auth.uid()]
    over the rows the sub-select can see. *)
Definition conversation_ids_of (uid : auth_uid) (rows : list cp.row) : list uuid :=
  map cp.conversation_id
      (filter (fun r => sql_eq (Some (cp.user_id r)) uid) rows).

(** [SELECT id FROM conversations WHERE created_by = auth.uid()] *)
Definition created_ids_of (uid : auth_uid) (rows : list conversations.row) : list uuid :=
  map conversations.id
      (filter (fun r => sql_eq (conversations.created_by r) uid) rows).

(** [x IN (...)] *)
Definition sql_in (x : uuid) (l : list uuid) : bool := existsb (N.eqb x) l.

(** [EXISTS (SELECT 1 FROM conversation_participants cp
             WHERE cp.conversation_id = c AND cp.user_id = auth.uid())] *)
Definition exists_participant (uid : auth_uid) (c : uuid) (rows : list cp.row) : bool :=
  existsb (fun r => N.eqb (cp.conversation_id r) c
                    && sql_eq (Some (cp.user_id r)) uid) rows.

(** [EXISTS (SELECT 1 FROM conversations c
             WHERE c.id = cid AND c.created_by = auth.uid())] *)
Definition exists_created (uid : auth_uid) (cid : uuid) (rows : list conversations.row) : bool :=
  existsb (fun r => N.eqb (conversations.id r) cid
                    && sql_eq (conversations.created_by r) uid) rows.

(** *** First migration (tables and the original policies) *)
Module initial_schema.

Definition view_all_profiles : policy profiles.row :=
  mkPolicy "Users can view all profiles" SELECT to_public
    (fun _ _ _ => Ok (fun _ => true)).

Definition update_own_profile : policy profiles.row :=
  mkPolicy "Users can update their own profile" UPDATE to_public
    (fun _ _ uid => Ok (fun r => sql_eq uid (Some (profiles.id r)))).

Definition insert_own_profile : policy profiles.row :=
  mkPolicy "Users can insert their own profile" INSERT to_public
    (fun _ _ uid => Ok (fun r => sql_eq uid (Some (profiles.id r)))).

Definition view_conversations : policy conversations.row :=
  mkPolicy "Users can view conversations they participate in" SELECT to_public
    (fun _ v uid =>
       rows <- v_conversation_participants v ;;
       Ok (fun r => sql_in (conversations.id r) (conversation_ids_of uid rows))).

Definition create_conversations : policy conversations.row :=
  mkPolicy "Users can create conversations" INSERT to_public
    (fun _ _ uid => Ok (fun r => sql_eq uid (conversations.created_by r))).

Definition view_participants : policy cp.row :=
  mkPolicy "Users can view participants of their conversations" SELECT to_public
    (fun _ v uid =>
       rows <- v_conversation_participants v ;;
       Ok (fun r => sql_in (cp.conversation_id r) (conversation_ids_of uid rows))).

Definition add_participants : policy cp.row :=
  mkPolicy "Users can add participants to conversations they created" INSERT to_public
    (fun _ v uid =>
       convs <- v_conversations v ;;
       Ok (fun r => sql_in (cp.conversation_id r) (created_ids_of uid convs)
                    || sql_eq (Some (cp.user_id r)) uid)).

Definition view_messages : policy messages.row :=
  mkPolicy "Users can view messages from their conversations" SELECT to_public
    (fun _ v uid =>
       rows <- v_conversation_participants v ;;
       Ok (fun r => sql_in (messages.conversation_id r) (conversation_ids_of uid rows))).

Definition send_messages : policy messages.row :=
  mkPolicy "Users can send messages to their conversations" INSERT to_public
    (fun _ v uid =>
       rows <- v_conversation_participants v ;;
       Ok (fun r => sql_eq uid (Some (messages.sender_id r))
                    && sql_in (messages.conversation_id r) (conversation_ids_of uid rows))).

Definition update_own_messages : policy messages.row :=
  mkPolicy "Users can update their own messages" UPDATE to_public
    (fun _ _ uid => Ok (fun r => sql_eq uid (Some (messages.sender_id r)))).

Definition migration : list statement :=
  [ create_on_profiles view_all_profiles;
    create_on_profiles update_own_profile;
    create_on_profiles insert_own_profile;
    create_on_conversations view_conversations;
    create_on_conversations create_conversations;
    create_on_conversation_participants view_participants;
    create_on_conversation_participants add_participants;
    create_on_messages view_messages;
    create_on_messages send_messages;
    create_on_messages update_own_messages ].

End initial_schema.

(** *** 20250814195648_raspy_spark.sql *)
Module raspy_spark.

(** [SECURITY DEFINER]: the body reads [conversation_participants] itself,
    not the caller's view of it. *)
Definition get_user_conversation_ids (s : Store) (uid : auth_uid) : list uuid :=
  conversation_ids_of uid (tbl_conversation_participants s).

(** [SECURITY DEFINER], over [conversations]. *)
Definition get_created_conversation_ids (s : Store) (uid : auth_uid) : list uuid :=
  created_ids_of uid (tbl_conversations s).

Definition view_conversations : policy conversations.row :=
  mkPolicy "Users can view conversations they participate in" SELECT to_public
    (fun s _ uid =>
       Ok (fun r => sql_in (conversations.id r) (get_user_conversation_ids s uid))).

Definition view_participants : policy cp.row :=
  mkPolicy "Users can view participants of their conversations" SELECT to_public
    (fun s _ uid =>
       Ok (fun r => sql_in (cp.conversation_id r) (get_user_conversation_ids s uid))).

Definition add_participants : policy cp.row :=
  mkPolicy "Users can add participants to conversations they created" INSERT to_public
    (fun s _ uid =>
       Ok (fun r => sql_in (cp.conversation_id r) (get_created_conversation_ids s uid)
                    || sql_eq (Some (cp.user_id r)) uid)).

Definition view_messages : policy messages.row :=
  mkPolicy "Users can view messages from their conversations" SELECT to_public
    (fun s _ uid =>
       Ok (fun r => sql_in (messages.conversation_id r) (get_user_conversation_ids s uid))).

Definition migration : list statement :=
  [ drop_on_conversations "Users can view conversations they participate in";
    drop_on_conversation_participants "Users can view participants of their conversations";
    drop_on_messages "Users can view messages from their conversations";
    drop_on_conversation_participants "Users can add participants to conversations they created";
    create_on_conversations view_conversations;
    create_on_conversation_participants view_participants;
    create_on_conversation_participants add_participants;
    create_on_messages view_messages ].

End raspy_spark.

(** *** 20250814200318_graceful_king.sql *)
Module graceful_king.

Definition view_participants : policy cp.row :=
  mkPolicy "Users can view participants of conversations they join" SELECT to_authenticated
    (fun _ v uid =>
       rows <- v_conversation_participants v ;;
       Ok (fun r => exists_participant uid (cp.conversation_id r) rows)).

Definition join_or_add : policy cp.row :=
  mkPolicy "Users can join conversations or add others to their own conversations"
    INSERT to_authenticated
    (fun _ v uid =>
       convs <- v_conversations v ;;
       Ok (fun r =>
             (* Users can always add themselves *)
             sql_eq (Some (cp.user_id r)) uid
             (* Users can add others to conversations they created *)
             || exists_created uid (cp.conversation_id r) convs)).

Definition view_conversations : policy conversations.row :=
  mkPolicy "Users can view their conversations" SELECT to_authenticated
    (fun _ v uid =>
       rows <- v_conversation_participants v ;;
       Ok (fun r => exists_participant uid (conversations.id r) rows)).

Definition view_messages : policy messages.row :=
  mkPolicy "Users can view messages in their conversations" SELECT to_authenticated
    (fun _ v uid =>
       rows <- v_conversation_participants v ;;
       Ok (fun r => exists_participant uid (messages.conversation_id r) rows)).

Definition send_messages : policy messages.row :=
  mkPolicy "Users can send messages to conversations they participate in"
    INSERT to_authenticated
    (fun _ v uid =>
       rows <- v_conversation_participants v ;;
       Ok (fun r => sql_eq (Some (messages.sender_id r)) uid
                    && exists_participant uid (messages.conversation_id r) rows)).

Definition migration : list statement :=
  [ drop_on_conversation_participants "Users can view participants of their conversations";
    drop_on_conversation_participants "Users can add participants to conversations they created";
    drop_on_conversations "Users can view conversations they participate in";
    drop_on_messages "Users can send messages to their conversations";
    drop_on_messages "Users can view messages from their conversations";
    create_on_conversation_participants view_participants;
    create_on_conversation_participants join_or_add;
    create_on_conversations view_conversations;
    create_on_messages view_messages;
    create_on_messages send_messages ].

End graceful_king.

(** The migrations run in the order of their timestamps. *)
Definition migrate_to_raspy_spark : result Catalog :=
  cat <- run_statements initial_schema.migration empty_catalog ;;
  run_statements raspy_spark.migration cat.

Definition migrate_all : result Catalog :=
  cat <- migrate_to_raspy_spark ;;
  run_statements graceful_king.migration cat.

(** The two later migrations in the other order. *)
Definition migrate_all_swapped : result Catalog :=
  cat <- run_statements initial_schema.migration empty_catalog ;;
  cat <- run_statements graceful_king.migration cat ;;
  run_statements raspy_spark.migration cat.

(** The policies in force once the first migration has run. *)
Definition initial_catalog : Catalog :=
  mkCatalog
    [ initial_schema.view_all_profiles; initial_schema.update_own_profile;
      initial_schema.insert_own_profile ]
    [ initial_schema.view_conversations; initial_schema.create_conversations ]
    [ initial_schema.view_participants; initial_schema.add_participants ]
    [ initial_schema.view_messages; initial_schema.send_messages;
      initial_schema.update_own_messages ].

(** The policies in force once [raspy_spark] has run. *)
Definition raspy_spark_catalog : Catalog :=
  mkCatalog
    [ initial_schema.view_all_profiles; initial_schema.update_own_profile;
      initial_schema.insert_own_profile ]
    [ initial_schema.create_conversations; raspy_spark.view_conversations ]
    [ raspy_spark.view_participants; raspy_spark.add_participants ]
    [ initial_schema.send_messages; initial_schema.update_own_messages;
      raspy_spark.view_messages ].

(** The policies in force once every migration has run. *)
Definition final_catalog : Catalog :=
  mkCatalog
    [ initial_schema.view_all_profiles; initial_schema.update_own_profile;
      initial_schema.insert_own_profile ]
    [ initial_schema.create_conversations; graceful_king.view_conversations ]
    [ graceful_king.view_participants; graceful_king.join_or_add ]
    [ initial_schema.update_own_messages; graceful_king.view_messages;
      graceful_king.send_messages ].


(** ** Sample data *)

Definition alice : uuid := 1.
Definition bob : uuid := 2.
Definition carol : uuid := 3.

Definition sample_profile (u : uuid) (name : string) : profiles.row :=
  profiles.mk u name (Some name) None (Some "online") (Some 0) 0 0.

(** A DM conversation 10 created by alice, joined by alice and bob, holding
    one message of alice ("hi"). *)
Definition sample_store : Store :=
  mkStore
    [ sample_profile alice "alice"; sample_profile bob "bob"; sample_profile carol "carol" ]
    [ conversations.mk 10 None dm (Some alice) 0 0 ]
    [ cp.mk 100 10 alice 0; cp.mk 101 10 bob 0 ]
    [ messages.mk 1000 10 alice [104; 105] (Some text) 1 None (Some false) ].

(** ** Profile provisioning (trigger [on_auth_user_created]) *)

(** The fields of [s] between occurrences of the character [d]. *)
Fixpoint split_on (d : ascii) (s : string) : list string :=
  match s with
  | EmptyString => [EmptyString]
  | String c s' =>
      if Ascii.eqb c d then EmptyString :: split_on d s'
      else match split_on d s' with
           | f :: fs => String c f :: fs
           | [] => [String c EmptyString]
           end
  end.

(** [split_part(s, d, n)] for a one-character delimiter: the [n]-th field,
    counted from 1, or the empty text when there is none. *)
Definition split_part (s : string) (d : ascii) (n : nat) : string :=
  nth (pred n) (split_on d s) EmptyString.

(** A [jsonb] member value. *)
Inductive json : Type :=
| jnull
| jstring (s : string)
| jother (rendered : string).   (* number, boolean, array or object, as text *)

Definition jsonb := list (string * json).

(** [j ->> key]: the member as text; NULL when [j] is NULL, when the key is
    absent and when the member is JSON null. *)
Definition json_get_text (j : option jsonb) (key : string) : option string :=
  match j with
  | None => None
  | Some members =>
      match find (fun kv => String.eqb (fst kv) key) members with
      | Some (_, jstring s) => Some s
      | Some (_, jother t) => Some t
      | Some (_, jnull) => None
      | None => None
      end
  end.

Definition COALESCE {A : Type} (a b : option A) : option A :=
  match a with
  | Some _ => a
  | None => b
  end.

Module auth_users.
Record row : Type := mk {
  id : uuid;
  email : option string;
  raw_user_meta_data : option jsonb
}.
End auth_users.

(** [INSERT INTO public.profiles (id, username, display_name) VALUES (...)]
    with the column defaults and constraints of the table.  The trigger is
    [SECURITY DEFINER]: no policy is consulted. *)
Definition insert_profile (now : timestamp) (s : Store)
  (id : uuid) (username display_name : option string) : result Store :=
  match username with
  | None => Err not_null_violation
  | Some name =>
      if existsb (fun p => N.eqb (profiles.id p) id) (tbl_profiles s)
         || existsb (fun p => String.eqb (profiles.username p) name) (tbl_profiles s)
      then Err unique_violation
      else Ok (mkStore
                 (tbl_profiles s ++
                    [profiles.mk id name display_name None (Some "online") (Some now) now now])
                 (tbl_conversations s)
                 (tbl_conversation_participants s)
                 (tbl_messages s))
  end.

Definition email_local_part (NEW : auth_users.row) : option string :=
  option_map (fun e => split_part e "@"%char 1) (auth_users.email NEW).

Definition handle_new_user (now : timestamp) (s : Store) (NEW : auth_users.row)
  : result Store :=
  insert_profile now s
    (auth_users.id NEW)
    (COALESCE (json_get_text (auth_users.raw_user_meta_data NEW) "username")
              (email_local_part NEW))
    (COALESCE (json_get_text (auth_users.raw_user_meta_data NEW) "display_name")
              (email_local_part NEW)).

(** ** Soft delete *)

(** Modelled from the spec: the soft-delete operation of the Entity Store
    ("soft-delete (Message only)": the row is "only flagged is_deleted").  No
    source file issues it; the schema only provides the column. *)
Definition soft_delete (m : messages.row) : messages.row :=
  messages.mk (messages.id m) (messages.conversation_id m) (messages.sender_id m)
              (messages.content m) (messages.type m) (messages.created_at m)
              (messages.edited_at m) (Some true).

(** Modelled from the spec: soft-deleting the message with primary key [mid]. *)
Definition soft_delete_message (mid : uuid) (s : Store) : Store :=
  mkStore (tbl_profiles s) (tbl_conversations s) (tbl_conversation_participants s)
          (map (fun m => if N.eqb (messages.id m) mid then soft_delete m else m)
               (tbl_messages s)).

(** ** JavaScript strings *)

(** WhiteSpace and LineTerminator code points of ECMAScript, the characters
    [String.prototype.trim] strips. *)
Definition is_js_whitespace (c : N) : bool :=
  existsb (N.eqb c)
    [ 0x09; 0x0A; 0x0B; 0x0C; 0x0D; 0x20; 0xA0; 0x1680;
      0x2000; 0x2001; 0x2002; 0x2003; 0x2004; 0x2005; 0x2006; 0x2007;
      0x2008; 0x2009; 0x200A; 0x2028; 0x2029; 0x202F; 0x205F; 0x3000; 0xFEFF ].

Fixpoint trimStart (s : jsstring) : jsstring :=
  match s with
  | [] => []
  | c :: s' => if is_js_whitespace c then trimStart s' else s
  end.

Definition trimEnd (s : jsstring) : jsstring := rev (trimStart (rev s)).

Definition trim (s : jsstring) : jsstring := trimEnd (trimStart s).

(** Truthiness of a string: only the empty string is falsy. *)
Definition truthy (s : jsstring) : bool :=
  match s with
  | [] => false
  | _ :: _ => true
  end.

(** ** Client programs *)

(** The session's user object ([useAuth().user]). *)
Record User : Type := mkUser { user_uid : uuid }.

(** A row of the message list ([interface Message] of the messages view). *)
Record message_view : Type := mkMessageView {
  mv_id : uuid;
  mv_content : jsstring;
  mv_sender_id : uuid;
  mv_created_at : timestamp;
  mv_edited_at : option timestamp;
  mv_profiles : option (string * option string)   (* profiles(username, display_name) *)
}.

(** What a component asks of its environment: the database calls it awaits,
    the clock, and the React state setters, callbacks and notifications. *)
Inductive request : Type :=
| insert_message (content : jsstring) (conversation_id sender_id : uuid) (type : message_type)
| update_conversation_updated_at (updated_at : timestamp) (id : uuid)
| select_participants_in (user_ids : list uuid)
| insert_conversation (type : conversation_type) (created_by : uuid)
| insert_participants (rows : list (uuid * uuid))   (* (conversation_id, user_id) *)
| select_messages (conversation_id : uuid) (is_deleted : bool)
| new_Date
| preventDefault
| setSending (b : bool)
| setMessage (s : jsstring)
| setCreating (b : bool)
| setMessages (l : list message_view)
| setLoading (b : bool)
| console_error (label : string) (e : error)
| toast_destructive (title : string) (e : error)
| toast (title description : string)
| onConversationCreated (id : uuid)
| onOpenChange (b : bool).

(** The value each request resolves to. *)
Definition response (q : request) : Type :=
  match q with
  | insert_message _ _ _ _ => result unit
  | update_conversation_updated_at _ _ => result unit
  | select_participants_in _ => result (list uuid)   (* rows {conversation_id} *)
  | insert_conversation _ _ => result conversations.row
  | insert_participants _ => result unit
  | select_messages _ _ => result (list message_view)
  | new_Date => timestamp
  | _ => unit
  end.

Inductive prog (R : Type) : Type :=
| ret (r : R)
| vis (q : request) (k : response q -> prog R).
Arguments ret {R} r.
Arguments vis {R} q k.

Fixpoint bind {A B : Type} (p : prog A) (f : A -> prog B) : prog B :=
  match p with
  | ret a => f a
  | vis q k => vis q (fun x => bind (k x) f)
  end.

Definition call (q : request) : prog (response q) := vis q (fun x => ret x).

(** An environment answers each request from its state. *)
Definition backend (W : Type) : Type := forall q : request, W -> response q * W.

(** Running a program: its value, the final state and the requests issued,
    in order. *)
Fixpoint run {W R : Type} (h : backend W) (p : prog R) (w : W) : R * W * list request :=
  match p with
  | ret r => (r, w, [])
  | vis q k =>
      let (x, w1) := h q w in
      let '(r, w2, t) := run h (k x) w1 in
      (r, w2, q :: t)
  end.

Definition trace {W R : Type} (h : backend W) (p : prog R) (w : W) : list request :=
  snd (run h p w).

Definition final_world {W R : Type} (h : backend W) (p : prog R) (w : W) : W :=
  snd (fst (run h p w)).

Module client.

Declare Scope prog_scope.
Delimit Scope prog_scope with prog.
Notation "x <- p ;; k" := (bind p (fun x => k))
  (at level 100, p at next level, right associativity) : prog_scope.
Notation "p ;;; k" := (bind p (fun _ => k))
  (at level 100, right associativity) : prog_scope.
Local Open Scope prog_scope.

(** *** MessageInput.tsx *)

Definition sendMessage (conversationId : uuid) (user : option User)
  (message : jsstring) (sending : bool) : prog unit :=
  call preventDefault ;;;
  match user with
  | Some u =>
      if negb (truthy (trim message)) || sending then ret tt
      else
        call (setSending true) ;;;
        r <- call (insert_message (trim message) conversationId (user_uid u) text) ;;
        match r with
        | Err e =>
            call (console_error "Error sending message:" e) ;;;
            call (toast_destructive "Failed to send message" e)
        | Ok _ =>
            call (setMessage []) ;;;
            (* Update conversation's updated_at timestamp *)
            t <- call new_Date ;;
            _ <- call (update_conversation_updated_at t conversationId) ;;
            ret tt
        end ;;;
        call (setSending false)
  | None => ret tt
  end.

(** *** NewConversationDialog.tsx *)

(** [acc[id] = (acc[id] || 0) + 1]: an existing key keeps its place, a new
    key is added last (the keys are UUID strings, which an object lists in
    insertion order). *)
Fixpoint bump (id : uuid) (acc : list (uuid * N)) : list (uuid * N) :=
  match acc with
  | [] => [(id, 1)]
  | (k, n) :: acc' =>
      if N.eqb k id then (k, n + 1) :: acc' else (k, n) :: bump id acc'
  end.

(** [existingConv.reduce(..., {})] *)
Definition conversationCounts (existingConv : list uuid) : list (uuid * N) :=
  fold_left (fun acc item => bump item acc) existingConv [].

(** [Object.keys(conversationCounts).find(id => conversationCounts[id] === 2)] *)
Definition find_count_2 (counts : list (uuid * N)) : option uuid :=
  option_map fst (find (fun kn => N.eqb (snd kn) 2) counts).

(** The conversation to reuse, if any: [existingConv] has to be non-null
    (it is null when the query failed) and hold two rows at least. *)
Definition existingConversationId (existingConv : result (list uuid)) : option uuid :=
  match existingConv with
  | Ok rows =>
      if Nat.leb 2 (List.length rows) then find_count_2 (conversationCounts rows) else None
  | Err _ => None
  end.

(** The [catch] block. *)
Definition creation_failed (e : error) : prog unit :=
  call (console_error "Error creating conversation:" e) ;;;
  call (toast_destructive "Failed to create conversation" e).

Definition createConversation (user : option User) (creating : bool)
  (otherUserId : uuid) : prog unit :=
  match user with
  | Some u =>
      if creating then ret tt
      else
        call (setCreating true) ;;;
        (* Check if conversation already exists *)
        existingConv <- call (select_participants_in [user_uid u; otherUserId]) ;;
        match existingConversationId existingConv with
        | Some id =>
            call (onConversationCreated id) ;;;
            call (onOpenChange false) ;;;
            call (setCreating false)
        | None =>
            (* Create new conversation *)
            c <- call (insert_conversation dm (user_uid u)) ;;
            match c with
            | Err convError => creation_failed convError
            | Ok conversation =>
                (* Add participants *)
                p <- call (insert_participants
                             [ (conversations.id conversation, user_uid u);
                               (conversations.id conversation, otherUserId) ]) ;;
                match p with
                | Err participantsError => creation_failed participantsError
                | Ok _ =>
                    call (onConversationCreated (conversations.id conversation)) ;;;
                    call (onOpenChange false) ;;;
                    call (toast "Conversation created" "You can now start chatting!")
                end
            end ;;;
            call (setCreating false)
        end
  | None => ret tt
  end.

(** *** The message list *)

Definition fetchMessages (conversationId : uuid) : prog unit :=
  r <- call (select_messages conversationId false) ;;
  match r with
  | Err e => call (console_error "Error fetching messages:" e)
  | Ok data =>
      call (setMessages data) ;;;
      call (setLoading false)
  end.

End client.

(** ** The database behind the client *)

(** The state the requests act on: the tables, the session of the caller,
    the clock ([now()], [new Date()]) and the next [gen_random_uuid()]. *)
Record World : Type := mkWorld {
  db : Store;
  session : auth_uid;
  clock : timestamp;
  next_uuid : uuid
}.

Definition tick (w : World) : World :=
  mkWorld (db w) (session w) (clock w + 1) (next_uuid w).

Definition with_db (s : Store) (fresh : N) (w : World) : World :=
  mkWorld s (session w) (clock w + 1) (next_uuid w + fresh).

Definition profile_exists (s : Store) (u : uuid) : bool :=
  existsb (fun p => N.eqb (profiles.id p) u) (tbl_profiles s).

Definition conversation_exists (s : Store) (c : uuid) : bool :=
  existsb (fun r => N.eqb (conversations.id r) c) (tbl_conversations s).

(** [supabase.from('messages').insert({content, conversation_id, sender_id, type})] *)
Definition db_insert_message (fuel : nat) (cat : Catalog) (w : World)
  (content : jsstring) (conversation_id sender_id : uuid) (type : message_type)
  : result unit * World :=
  let row := messages.mk (next_uuid w) conversation_id sender_id content
                         (Some type) (clock w) None (Some false) in
  match check_insert_message fuel cat (db w) (session w) row with
  | Err e => (Err e, tick w)
  | Ok false => (Err row_security_violation, tick w)
  | Ok true =>
      if conversation_exists (db w) conversation_id && profile_exists (db w) sender_id
      then (Ok tt,
            with_db (mkStore (tbl_profiles (db w)) (tbl_conversations (db w))
                             (tbl_conversation_participants (db w))
                             (tbl_messages (db w) ++ [row])) 1 w)
      else (Err foreign_key_violation, tick w)
  end.

(** Trigger [update_conversations_updated_at] (BEFORE UPDATE, function
    [update_updated_at_column]): [NEW.updated_at = now()]. *)
Definition update_updated_at_column (now : timestamp) (NEW : conversations.row)
  : conversations.row :=
  conversations.mk (conversations.id NEW) (conversations.name NEW)
                   (conversations.type NEW) (conversations.created_by NEW)
                   (conversations.created_at NEW) now.

Definition set_updated_at (t : timestamp) (r : conversations.row) : conversations.row :=
  conversations.mk (conversations.id r) (conversations.name r)
                   (conversations.type r) (conversations.created_by r)
                   (conversations.created_at r) t.

(** One row of [UPDATE conversations SET updated_at = t WHERE id = cid]: the
    statement reads the table ([WHERE id = ...]), so it only finds rows the
    SELECT policies show, and it updates a row only if an UPDATE policy lets
    the caller do so. *)
Definition update_conversation_row (visible permitted : conversations.row -> bool)
  (now t : timestamp) (cid : uuid) (r : conversations.row) : conversations.row :=
  if N.eqb (conversations.id r) cid && visible r && permitted r
  then update_updated_at_column now (set_updated_at t r)
  else r.

(** [supabase.from('conversations').update({updated_at}).eq('id', cid)]: the
    SELECT and the UPDATE policies of the table are expanded first. *)
Definition db_update_conversation (fuel : nat) (cat : Catalog) (w : World)
  (t : timestamp) (cid : uuid) : result unit * World :=
  let v := rls_views fuel cat (db w) (session w) in
  match (visible <- row_security SELECT (on_conversations cat) (db w) v (session w) ;;
         permitted <- row_security UPDATE (on_conversations cat) (db w) v (session w) ;;
         Ok (map (update_conversation_row visible permitted (clock w) t cid)
                 (tbl_conversations (db w)))) with
  | Err e => (Err e, tick w)
  | Ok convs =>
      (Ok tt,
       with_db (mkStore (tbl_profiles (db w)) convs
                        (tbl_conversation_participants (db w)) (tbl_messages (db w))) 0 w)
  end.

(** [.select('conversation_id').in('user_id', ids)] over the rows the caller
    may see. *)
Definition participants_in (ids : list uuid) (visible : list cp.row) : list uuid :=
  map cp.conversation_id
      (filter (fun r => existsb (N.eqb (cp.user_id r)) ids) visible).

Definition db_select_participants_in (fuel : nat) (cat : Catalog) (w : World)
  (ids : list uuid) : result (list uuid) * World :=
  (rows <- read_participants fuel cat (db w) (session w) ;; Ok (participants_in ids rows),
   tick w).

(** [.insert({type, created_by}).select().single()]: the new row has to pass
    the INSERT check and, being returned, the SELECT policies. *)
Definition db_insert_conversation (fuel : nat) (cat : Catalog) (w : World)
  (type : conversation_type) (created_by : uuid) : result conversations.row * World :=
  let row := conversations.mk (next_uuid w) None type (Some created_by)
                              (clock w) (clock w) in
  let v := rls_views fuel cat (db w) (session w) in
  match (checked <- row_security INSERT (on_conversations cat) (db w) v (session w) ;;
         visible <- row_security SELECT (on_conversations cat) (db w) v (session w) ;;
         Ok (checked row && visible row)) with
  | Err e => (Err e, tick w)
  | Ok false => (Err row_security_violation, tick w)
  | Ok true =>
      if profile_exists (db w) created_by
      then (Ok row,
            with_db (mkStore (tbl_profiles (db w)) (tbl_conversations (db w) ++ [row])
                             (tbl_conversation_participants (db w))
                             (tbl_messages (db w))) 1 w)
      else (Err foreign_key_violation, tick w)
  end.

(** The rows of one [insert([...])] on [conversation_participants], taken
    one after the other: each has to pass the INSERT check, decided against
    the table as the statement found it, and then the UNIQUE constraint,
    against the table and the rows before it. *)
Fixpoint new_participants (passes : cp.row -> bool) (w : World)
  (fresh : uuid) (added : list cp.row) (rows : list (uuid * uuid))
  : result (list cp.row) :=
  match rows with
  | [] => Ok added
  | (c, u) :: rows' =>
      let row := cp.mk fresh c u (clock w) in
      if negb (passes row) then Err row_security_violation
      else if existsb (fun r => N.eqb (cp.conversation_id r) c && N.eqb (cp.user_id r) u)
                      (tbl_conversation_participants (db w) ++ added)
      then Err unique_violation
      else new_participants passes w (fresh + 1) (added ++ [row]) rows'
  end.

(** The foreign keys of a Participant row; they are checked by triggers that
    run once every row of the statement is in. *)
Definition participant_references_exist (s : Store) (r : cp.row) : bool :=
  conversation_exists s (cp.conversation_id r) && profile_exists s (cp.user_id r).

(** [supabase.from('conversation_participants').insert([...])]: the statement
    adds all of its rows or none. *)
Definition db_insert_participants (fuel : nat) (cat : Catalog) (w : World)
  (rows : list (uuid * uuid)) : result unit * World :=
  match (passes <- row_security INSERT (on_conversation_participants cat) (db w)
                     (rls_views fuel cat (db w) (session w)) (session w) ;;
         added <- new_participants passes w (next_uuid w) [] rows ;;
         if forallb (participant_references_exist (db w)) added
         then Ok added
         else Err foreign_key_violation) with
  | Err e => (Err e, tick w)
  | Ok added =>
      (Ok tt,
       with_db (mkStore (tbl_profiles (db w)) (tbl_conversations (db w))
                        (tbl_conversation_participants (db w) ++ added)
                        (tbl_messages (db w)))
               (N.of_nat (List.length added)) w)
  end.

(** [.order('created_at', { ascending: true })]; rows of equal [created_at]
    stay in table order. *)
Fixpoint insert_by_created_at (m : messages.row) (sorted : list messages.row)
  : list messages.row :=
  match sorted with
  | [] => [m]
  | m' :: rest =>
      if N.leb (messages.created_at m) (messages.created_at m')
      then m :: sorted
      else m' :: insert_by_created_at m rest
  end.

Definition order_by_created_at (rows : list messages.row) : list messages.row :=
  fold_right insert_by_created_at [] rows.

(** [.eq('conversation_id', cid).eq('is_deleted', del)]; a NULL flag equals
    neither value. *)
Definition matches_filters (cid : uuid) (del : bool) (m : messages.row) : bool :=
  N.eqb (messages.conversation_id m) cid
  && match messages.is_deleted m with
     | Some b => Bool.eqb b del
     | None => false
     end.

(** The rows the message query selects, in the order it returns them. *)
Definition selected_messages (visible : list messages.row) (cid : uuid) (del : bool)
  : list messages.row :=
  order_by_created_at (filter (matches_filters cid del) visible).

(** The selected columns, with the embedded [profiles(username, display_name)]. *)
Definition to_view (profs : list profiles.row) (m : messages.row) : message_view :=
  mkMessageView (messages.id m) (messages.content m) (messages.sender_id m)
                (messages.created_at m) (messages.edited_at m)
                (option_map (fun p => (profiles.username p, profiles.display_name p))
                            (find (fun p => N.eqb (profiles.id p) (messages.sender_id m)) profs)).

Definition messages_query (visible : list messages.row) (profs : list profiles.row)
  (cid : uuid) (del : bool) : list message_view :=
  map (to_view profs) (selected_messages visible cid del).

Definition db_select_messages (fuel : nat) (cat : Catalog) (w : World)
  (cid : uuid) (del : bool) : result (list message_view) * World :=
  (msgs <- read_messages fuel cat (db w) (session w) ;;
   profs <- read_profiles fuel cat (db w) (session w) ;;
   Ok (messages_query msgs profs cid del),
   tick w).

(** The database with the policies of catalog [cat], as the client's
    environment. *)
Definition rls_backend (fuel : nat) (cat : Catalog) : backend World :=
  fun q =>
    match q as q0 return World -> response q0 * World with
    | insert_message c cid sid ty => fun w => db_insert_message fuel cat w c cid sid ty
    | update_conversation_updated_at t cid => fun w => db_update_conversation fuel cat w t cid
    | select_participants_in ids => fun w => db_select_participants_in fuel cat w ids
    | insert_conversation ty by_ => fun w => db_insert_conversation fuel cat w ty by_
    | insert_participants rows => fun w => db_insert_participants fuel cat w rows
    | select_messages cid del => fun w => db_select_messages fuel cat w cid del
    | new_Date => fun w => (clock w, tick w)
    | _ => fun w => (tt, tick w)
    end.

(** An environment that answers the de-duplication lookup from a given list
    of visible Participant rows and refuses every write. *)
Definition lookup_backend (visible : list cp.row) : backend unit :=
  fun q =>
    match q as q0 return unit -> response q0 * unit with
    | insert_message _ _ _ _ => fun w => (Err row_security_violation, w)
    | update_conversation_updated_at _ _ => fun w => (Err row_security_violation, w)
    | select_participants_in ids => fun w => (Ok (participants_in ids visible), w)
    | insert_conversation _ _ => fun w => (Err row_security_violation, w)
    | insert_participants _ => fun w => (Err row_security_violation, w)
    | select_messages _ _ => fun w => (Err row_security_violation, w)
    | new_Date => fun w => (0, w)
    | _ => fun w => (tt, w)
    end.

(** Alice's session, at clock 7. *)
Definition alice_world : World := mkWorld sample_store (Some alice) 7 2000.

(** The profile provisioning creates for a principal named by the local part
    "alice". *)
Definition alice_profile (id : uuid) (now : timestamp) : profiles.row :=
  profiles.mk id "alice" (Some "alice") None (Some "online") (Some now) now now.

(** ** De-duplication of DM conversations: auxiliary notions *)

(** [conversationCounts[id] || 0] *)
Definition count_of (k : uuid) (counts : list (uuid * N)) : N :=
  match find (fun kn => N.eqb (fst kn) k) counts with
  | Some (_, n) => n
  | None => 0
  end.

(** The (conversation_id, user_id) pair of a Participant row, the key of the
    table's UNIQUE constraint. *)
Definition membership (r : cp.row) : uuid * uuid :=
  (cp.conversation_id r, cp.user_id r).

(** Among the rows [visible], principal [u] has a row in conversation [c]. *)
Definition has_row (visible : list cp.row) (c u : uuid) : bool :=
  existsb (fun r => N.eqb (cp.conversation_id r) c && N.eqb (cp.user_id r) u) visible.

(** The principals with a row in conversation [c], in row order. *)
Definition members (visible : list cp.row) (c : uuid) : list uuid :=
  map cp.user_id (filter (fun r => N.eqb (cp.conversation_id r) c) visible).

Definition membership_eq_dec (x y : uuid * uuid) : {x = y} + {x <> y}.
Proof. decide equality; apply N.eq_dec. Defined.

(** A group conversation 20 of alice, bob and carol, followed by the DM
    conversation 10 of alice and bob. *)
Definition group_then_dm : list cp.row :=
  [ cp.mk 200 20 alice 0; cp.mk 201 20 bob 0; cp.mk 202 20 carol 0;
    cp.mk 100 10 alice 1; cp.mk 101 10 bob 1 ].

Definition group_then_dm_store : Store :=
  mkStore
    [ sample_profile alice "alice"; sample_profile bob "bob"; sample_profile carol "carol" ]
    [ conversations.mk 20 (Some "team") group (Some carol) 0 0;
      conversations.mk 10 None dm (Some alice) 1 1 ]
    group_then_dm
    [].

(** ** Observations on the requests of a run *)

Definition is_insert_message (q : request) : bool :=
  match q with insert_message _ _ _ _ => true | _ => false end.

Definition is_update_conversation (q : request) : bool :=
  match q with update_conversation_updated_at _ _ => true | _ => false end.

Definition is_insert_conversation (q : request) : bool :=
  match q with insert_conversation _ _ => true | _ => false end.

Definition is_insert_participants (q : request) : bool :=
  match q with insert_participants _ => true | _ => false end.

Definition is_onConversationCreated (q : request) : bool :=
  match q with onConversationCreated _ => true | _ => false end.

Definition is_toast_destructive (q : request) : bool :=
  match q with toast_destructive _ _ => true | _ => false end.

Definition is_setMessage (q : request) : bool :=
  match q with setMessage _ => true | _ => false end.

(** The state of the environment once it has answered the requests [qs], in
    order, from [w]. *)
Definition after {W : Type} (h : backend W) (qs : list request) (w : W) : W :=
  fold_left (fun w' q => snd (h q w')) qs w.

(** How many requests of a kind a run issued. *)
Definition issued (kind : request -> bool) (t : list request) : nat :=
  List.length (filter kind t).

(** A string made of whitespace only (the empty string included). *)
Definition all_whitespace (s : jsstring) : bool := forallb is_js_whitespace s.

(** ** Decisions and memberships, for any caller *)

(** A write goes through only on the decision ALLOW. *)
Definition allowed (decision : result bool) : bool :=
  match decision with
  | Ok true => true
  | _ => false
  end.

(** The caller, if signed in, has a row in conversation [c]. *)
Definition participates (s : Store) (uid : auth_uid) (c : uuid) : bool :=
  match uid with
  | Some p => is_participant s p c
  | None => false
  end.

(** The catalogs the database goes through, migration after migration. *)
Definition catalog_states : list Catalog :=
  [initial_catalog; raspy_spark_catalog; final_catalog].

(** No membership row refers to the conversation id that [gen_random_uuid()]
    hands out next. *)
Definition next_uuid_unused (w : World) : bool :=
  negb (existsb (fun r => N.eqb (cp.conversation_id r) (next_uuid w))
                (tbl_conversation_participants (db w))).

(** ** Notions for the properties of provisioning *)

(** The PRIMARY KEY and the UNIQUE constraint of [profiles] hold. *)
Definition profile_keys_unique (s : Store) : Prop :=
  NoDup (map profiles.id (tbl_profiles s))
  /\ NoDup (map profiles.username (tbl_profiles s)).

(** The username and the display name the trigger computes. *)
Definition new_username (NEW : auth_users.row) : option string :=
  COALESCE (json_get_text (auth_users.raw_user_meta_data NEW) "username")
           (email_local_part NEW).

Definition new_display_name (NEW : auth_users.row) : option string :=
  COALESCE (json_get_text (auth_users.raw_user_meta_data NEW) "display_name")
           (email_local_part NEW).

(** ** Notions for the order of the message list *)

(** [a] was created no later than [b]. *)
Definition created_before (a b : messages.row) : Prop :=
  (messages.created_at a <= messages.created_at b)%N.

(** ** Names shown by the components *)

(** [a || b] on values that may be null, undefined or the empty string. *)
Definition js_or (a b : option string) : option string :=
  match a with
  | Some (String _ _) => a
  | _ => b
  end.

(** [a || 'literal'] with a non-empty literal. *)
Definition js_or_literal (a : option string) (literal : string) : string :=
  match a with
  | Some (String c s) => String c s
  | _ => literal
  end.

(** [profiles?.username] and [profiles?.display_name] of an embedded
    [profiles(username, display_name)]. *)
Definition embedded_username (profiles : option (string * option string)) : option string :=
  option_map fst profiles.

Definition embedded_display_name (profiles : option (string * option string))
  : option string :=
  match profiles with
  | Some (_, d) => d
  | None => None
  end.

Module MessagesList.

Definition getDisplayName (message : message_view) : string :=
  js_or_literal (js_or (embedded_display_name (mv_profiles message))
                       (embedded_username (mv_profiles message)))
                "Unknown User".

End MessagesList.

Module ConversationsList.

(** An embedded [conversation_participants!inner(user_id, profiles(...))]. *)
Record participant : Type := mkParticipant {
  user_id : uuid;
  profiles : option (string * option string)
}.

(** [interface Conversation], with the embedded participants of the query. *)
Record Conversation : Type := mkConversation {
  id : uuid;
  name : option string;
  type : conversation_type;
  updated_at : timestamp;
  created_by : option uuid;
  conversation_participants : list participant;
  other_user : option (string * option string)
}.

(** The callback of [convData?.map]: a DM gets the profile of the first
    participant who is not the user. *)
Definition processConversation (user : User) (conv : Conversation) : Conversation :=
  match type conv with
  | dm =>
      let otherParticipant :=
        find (fun p => negb (N.eqb (user_id p) (user_uid user)))
             (conversation_participants conv) in
      mkConversation (id conv) (name conv) (type conv) (updated_at conv) (created_by conv)
        (conversation_participants conv)
        (match otherParticipant with
         | Some p => profiles p
         | None => None
         end)
  | group => conv
  end.

(** [convData?.map(...) || []] *)
Definition processedConversations (user : User) (convData : option (list Conversation))
  : list Conversation :=
  match convData with
  | Some rows => map (processConversation user) rows
  | None => []
  end.

Definition getConversationName (conversation : Conversation) : string :=
  match type conversation with
  | group => js_or_literal (name conversation) "Group Chat"
  | dm =>
      js_or_literal (js_or (embedded_display_name (other_user conversation))
                           (embedded_username (other_user conversation)))
                    "Unknown User"
  end.

End ConversationsList.

Module NewConversationDialog.

(** [interface User] of the dialog's list. *)
Record User : Type := mkUser {
  id : uuid;
  username : string;
  display_name : option string
}.

(** [user.display_name || user.username] *)
Definition getDisplayName (user : User) : string :=
  match js_or (display_name user) (Some (username user)) with
  | Some s => s
  | None => EmptyString
  end.

End NewConversationDialog.

(** ** Notions for the properties of the migrations *)

(** The table has a policy of that name. *)
Definition has_policy {R : Type} (name : string) (ps : list (policy R)) : bool :=
  existsb (fun q => String.eqb (pol_name q) name) ps.

(** The catalog [raspy_spark] leaves when it starts from [cat]. *)
Definition after_raspy_spark (cat : Catalog) : Catalog :=
  mkCatalog
    (on_profiles cat)
    (drop_policy "Users can view conversations they participate in" (on_conversations cat)
       ++ [raspy_spark.view_conversations])
    (drop_policy "Users can add participants to conversations they created"
       (drop_policy "Users can view participants of their conversations"
          (on_conversation_participants cat))
       ++ [raspy_spark.view_participants; raspy_spark.add_participants])
    (drop_policy "Users can view messages from their conversations" (on_messages cat)
       ++ [raspy_spark.view_messages]).
(** * Properties *)

(** Names the answers an environment [h] gives along a run. *)
Ltac answer h :=
  repeat match goal with
         | |- context [h ?q ?w] =>
             let x := fresh "x" in let w' := fresh "w" in
             destruct (h q w) as [x w']; cbn in *
         end.

(** ** The migrations *)

Lemma migrate_initial_eq :
  run_statements initial_schema.migration empty_catalog = Ok initial_catalog.
Proof. reflexivity. Qed.

Lemma migrate_to_raspy_spark_eq : migrate_to_raspy_spark = Ok raspy_spark_catalog.
Proof. reflexivity. Qed.

Lemma migrate_all_eq : migrate_all = Ok final_catalog.
Proof. reflexivity. Qed.

(** [raspy_spark] drops policies by their original names only: were it to
    run after [graceful_king], the self-referring SELECT policy of
    [conversation_participants] would still be in force. *)
Lemma graceful_king_policy_survives_swapped_order :
  exists cat,
    migrate_all_swapped = Ok cat
    /\ on_conversation_participants cat
       = [ graceful_king.view_participants; graceful_king.join_or_add;
           raspy_spark.view_participants; raspy_spark.add_participants ].
Proof.
  exists (mkCatalog
            [ initial_schema.view_all_profiles; initial_schema.update_own_profile;
              initial_schema.insert_own_profile ]
            [ initial_schema.create_conversations; graceful_king.view_conversations;
              raspy_spark.view_conversations ]
            [ graceful_king.view_participants; graceful_king.join_or_add;
              raspy_spark.view_participants; raspy_spark.add_participants ]
            [ initial_schema.update_own_messages; graceful_king.view_messages;
              graceful_king.send_messages; raspy_spark.view_messages ]).
  split; reflexivity.
Qed.

(** ** Policy evaluation: general facts *)

Lemma filter_none {A : Type} (l : list A) : filter (fun _ => false) l = [].
Proof. induction l; [reflexivity | assumption]. Qed.

Lemma filter_all {A : Type} (l : list A) : filter (fun _ => true) l = l.
Proof. induction l; cbn; congruence. Qed.

(** The policy on [profiles] has no sub-select: in every catalog one level
    answers the read, with every row. *)
Lemma read_profiles_all cat fuel s uid :
  In cat [initial_catalog; raspy_spark_catalog; final_catalog] ->
  read_profiles (S fuel) cat s uid = Ok (tbl_profiles s).
Proof.
  intros [<-|[<-|[<-|[]]]]; unfold read_profiles; cbn; f_equal; apply filter_all.
Qed.

(** ** The policies of the last migration never answer a signed-in caller *)

(** The SELECT policy of [conversation_participants] sub-selects
    [conversation_participants]: each level of nesting asks for the same view
    one level down, whatever the table holds. *)
Lemma final_participants_view_never s u :
  forall fuel, read_participants fuel final_catalog s (Some u) = Err policy_recursion.
Proof.
  intros fuel. induction fuel as [|n IH].
  - reflexivity.
  - unfold read_participants in *. cbn [rls_views v_conversation_participants].
    unfold visible_rows, row_security.
    cbn [on_conversation_participants final_catalog applicable filter pol_cmd pol_roles
         command_eqb role_applies andb graceful_king.view_participants
         graceful_king.join_or_add permissive_or pol_qual].
    rewrite IH. reflexivity.
Qed.

Lemma final_conversations_view_never s u :
  forall fuel, read_conversations fuel final_catalog s (Some u) = Err policy_recursion.
Proof.
  intros [|n]; [reflexivity|].
  unfold read_conversations. cbn [rls_views v_conversations].
  unfold visible_rows, row_security.
  cbn [on_conversations final_catalog applicable filter pol_cmd pol_roles
       command_eqb role_applies andb initial_schema.create_conversations
       graceful_king.view_conversations permissive_or pol_qual].
  change (v_conversation_participants (rls_views n final_catalog s (Some u)))
    with (read_participants n final_catalog s (Some u)).
  rewrite final_participants_view_never. reflexivity.
Qed.

Lemma final_messages_view_never s u :
  forall fuel, read_messages fuel final_catalog s (Some u) = Err policy_recursion.
Proof.
  intros [|n]; [reflexivity|].
  unfold read_messages. cbn [rls_views v_messages].
  unfold visible_rows, row_security.
  cbn [on_messages final_catalog applicable filter pol_cmd pol_roles
       command_eqb role_applies andb initial_schema.update_own_messages
       graceful_king.view_messages graceful_king.send_messages permissive_or pol_qual].
  change (v_conversation_participants (rls_views n final_catalog s (Some u)))
    with (read_participants n final_catalog s (Some u)).
  rewrite final_participants_view_never. reflexivity.
Qed.

(** The INSERT check on [messages] sub-selects [conversation_participants]. *)
Lemma final_send_check_never fuel s u r :
  check_insert_message fuel final_catalog s (Some u) r = Err policy_recursion.
Proof.
  unfold check_insert_message, check_insert, row_security.
  cbn [on_messages final_catalog applicable filter pol_cmd pol_roles
       command_eqb role_applies andb initial_schema.update_own_messages
       graceful_king.view_messages graceful_king.send_messages permissive_or pol_qual].
  change (v_conversation_participants (rls_views fuel final_catalog s (Some u)))
    with (read_participants fuel final_catalog s (Some u)).
  rewrite final_participants_view_never. reflexivity.
Qed.

(** The INSERT check on [conversation_participants] sub-selects
    [conversations], whose SELECT policy sub-selects
    [conversation_participants]. *)
Lemma final_add_check_never fuel s u r :
  check_insert_participant fuel final_catalog s (Some u) r = Err policy_recursion.
Proof.
  unfold check_insert_participant, check_insert, row_security.
  cbn [on_conversation_participants final_catalog applicable filter pol_cmd pol_roles
       command_eqb role_applies andb graceful_king.view_participants
       graceful_king.join_or_add permissive_or pol_qual].
  change (v_conversations (rls_views fuel final_catalog s (Some u)))
    with (read_conversations fuel final_catalog s (Some u)).
  rewrite final_conversations_view_never. reflexivity.
Qed.

(** ** The policies of [raspy_spark] decide as designed *)

(** The policies of [raspy_spark] never consult a view: one level suffices,
    and the rows returned are those of the caller's conversations. *)
Lemma raspy_spark_read_participants fuel s uid :
  read_participants (S fuel) raspy_spark_catalog s uid
  = Ok (filter (fun r => sql_in (cp.conversation_id r)
                                (raspy_spark.get_user_conversation_ids s uid))
               (tbl_conversation_participants s)).
Proof.
  unfold read_participants. cbn [rls_views v_conversation_participants].
  cbn. f_equal. apply filter_ext. intros r. apply orb_false_r.
Qed.

Lemma raspy_spark_read_conversations fuel s uid :
  read_conversations (S fuel) raspy_spark_catalog s uid
  = Ok (filter (fun r => sql_in (conversations.id r)
                                (raspy_spark.get_user_conversation_ids s uid))
               (tbl_conversations s)).
Proof.
  unfold read_conversations. cbn [rls_views v_conversations].
  cbn. f_equal. apply filter_ext. intros r. apply orb_false_r.
Qed.

Lemma raspy_spark_read_messages fuel s uid :
  read_messages (S fuel) raspy_spark_catalog s uid
  = Ok (filter (fun r => sql_in (messages.conversation_id r)
                                (raspy_spark.get_user_conversation_ids s uid))
               (tbl_messages s)).
Proof.
  unfold read_messages. cbn [rls_views v_messages].
  cbn. f_equal. apply filter_ext. intros r. apply orb_false_r.
Qed.

(** Membership as the helper of [raspy_spark] computes it. *)
Lemma sql_in_user_conversation_ids s p c :
  sql_in c (raspy_spark.get_user_conversation_ids s (Some p)) = is_participant s p c.
Proof.
  unfold raspy_spark.get_user_conversation_ids, conversation_ids_of, sql_in, is_participant.
  induction (tbl_conversation_participants s) as [|r rows IH].
  - reflexivity.
  - cbn [filter existsb].
    change (sql_eq (Some (cp.user_id r)) (Some p)) with (N.eqb (cp.user_id r) p).
    destruct (N.eqb (cp.user_id r) p) eqn:Hu.
    + cbn [map existsb]. rewrite IH, andb_true_r, (N.eqb_sym c). reflexivity.
    + rewrite IH, andb_false_r. reflexivity.
Qed.

Lemma sql_in_created_conversation_ids s p c :
  sql_in c (raspy_spark.get_created_conversation_ids s (Some p)) = is_creator s p c.
Proof.
  unfold raspy_spark.get_created_conversation_ids, created_ids_of, sql_in, is_creator.
  induction (tbl_conversations s) as [|r rows IH].
  - reflexivity.
  - cbn [filter existsb].
    destruct (sql_eq (conversations.created_by r) (Some p)) eqn:Hu.
    + cbn [map existsb]. rewrite IH, andb_true_r, (N.eqb_sym c). reflexivity.
    + rewrite IH, andb_false_r. reflexivity.
Qed.

(** A read returns exactly the rows of the conversations the reader
    participates in. *)
Lemma raspy_spark_reads_rows_of_participant fuel s p :
  read_conversations (S fuel) raspy_spark_catalog s (Some p)
  = Ok (filter (fun r => is_participant s p (conversations.id r)) (tbl_conversations s))
  /\ read_participants (S fuel) raspy_spark_catalog s (Some p)
     = Ok (filter (fun r => is_participant s p (cp.conversation_id r))
                  (tbl_conversation_participants s))
  /\ read_messages (S fuel) raspy_spark_catalog s (Some p)
     = Ok (filter (fun r => is_participant s p (messages.conversation_id r))
                  (tbl_messages s)).
Proof.
  rewrite raspy_spark_read_conversations, raspy_spark_read_participants,
    raspy_spark_read_messages.
  repeat split; f_equal; apply filter_ext; intros r;
    apply sql_in_user_conversation_ids.
Qed.

(** The caller's own membership rows are among the rows the caller sees. *)
Lemma raspy_spark_own_rows_visible s p :
  conversation_ids_of (Some p)
    (filter (fun r => sql_in (cp.conversation_id r)
                             (raspy_spark.get_user_conversation_ids s (Some p)))
            (tbl_conversation_participants s))
  = conversation_ids_of (Some p) (tbl_conversation_participants s).
Proof.
  unfold conversation_ids_of. f_equal.
  assert (Hown : forall r, In r (tbl_conversation_participants s) ->
                  sql_eq (Some (cp.user_id r)) (Some p) = true ->
                  sql_in (cp.conversation_id r)
                         (raspy_spark.get_user_conversation_ids s (Some p)) = true).
  { intros r Hin Hu. rewrite sql_in_user_conversation_ids.
    unfold is_participant. apply existsb_exists. exists r. split; [exact Hin|].
    cbn in Hu. rewrite N.eqb_refl, Hu. reflexivity. }
  induction (tbl_conversation_participants s) as [|r rows IH]; [reflexivity|].
  cbn [filter].
  destruct (sql_eq (Some (cp.user_id r)) (Some p)) eqn:Hu.
  - rewrite (Hown r (or_introl eq_refl) Hu). cbn [filter]. rewrite Hu.
    f_equal. apply IH. intros r' Hin. apply Hown. right. exact Hin.
  - destruct (sql_in _ _).
    + cbn [filter]. rewrite Hu. apply IH. intros r' Hin. apply Hown. right. exact Hin.
    + apply IH. intros r' Hin. apply Hown. right. exact Hin.
Qed.

(** A Message insert is allowed exactly when the sender is the caller and
    the caller participates in the conversation. *)
Lemma raspy_spark_send_check fuel s p r :
  check_insert_message (S fuel) raspy_spark_catalog s (Some p) r
  = Ok (N.eqb p (messages.sender_id r)
        && is_participant s p (messages.conversation_id r)).
Proof.
  unfold check_insert_message, check_insert, row_security.
  cbn [on_messages raspy_spark_catalog applicable filter pol_cmd pol_roles command_eqb
       role_applies andb initial_schema.send_messages initial_schema.update_own_messages
       raspy_spark.view_messages permissive_or pol_qual].
  change (v_conversation_participants (rls_views (S fuel) raspy_spark_catalog s (Some p)))
    with (read_participants (S fuel) raspy_spark_catalog s (Some p)).
  rewrite raspy_spark_read_participants. cbn [rbind].
  rewrite raspy_spark_own_rows_visible.
  change (conversation_ids_of (Some p) (tbl_conversation_participants s))
    with (raspy_spark.get_user_conversation_ids s (Some p)).
  rewrite sql_in_user_conversation_ids, orb_false_r. reflexivity.
Qed.

(** A Participant insert is allowed exactly when the caller created the
    conversation or the row names the caller. *)
Lemma raspy_spark_add_check fuel s p r :
  check_insert_participant fuel raspy_spark_catalog s (Some p) r
  = Ok (is_creator s p (cp.conversation_id r) || N.eqb (cp.user_id r) p).
Proof.
  unfold check_insert_participant, check_insert. cbn.
  rewrite sql_in_created_conversation_ids, orb_false_r. reflexivity.
Qed.

(** ** The policies of the last migration *)

(** C1.  The claim is that no policy needs its own table's read policy again,
    the membership test being a privileged lookup, so that every decision
    terminates.  In the catalog left by the last migration the SELECT policy of
    [conversation_participants] sub-selects [conversation_participants]:
    alice, a participant of conversation 10, never gets an answer when she
    reads the table, whatever the nesting allowed.  Under the policies of
    [raspy_spark], which use the [SECURITY DEFINER] helper, the same read
    returns both rows at the first level. *)
Theorem final_participants_policy_reenters_itself :
  (forall fuel,
      read_participants fuel final_catalog sample_store (Some alice)
      = Err policy_recursion)
  /\ (forall fuel,
      read_participants (S fuel) raspy_spark_catalog sample_store (Some alice)
      = Ok (tbl_conversation_participants sample_store)).
Proof.
  split.
  - apply final_participants_view_never.
  - intros fuel. rewrite raspy_spark_read_participants. reflexivity.
Qed.

(** C2.  The claim is that a read returns a Conversation, Participant or
    Message row exactly when the reader participates in its conversation.
    Alice participates in conversation 10, yet with the last migration's
    policies her reads of the three tables return no row at any nesting
    depth; only the Profile part of the claim holds. *)
Theorem final_reads_fail_for_a_participant :
  is_participant sample_store alice 10 = true
  /\ (forall fuel,
        read_conversations fuel final_catalog sample_store (Some alice)
        = Err policy_recursion)
  /\ (forall fuel,
        read_participants fuel final_catalog sample_store (Some alice)
        = Err policy_recursion)
  /\ (forall fuel,
        read_messages fuel final_catalog sample_store (Some alice)
        = Err policy_recursion)
  /\ (forall fuel s uid,
        read_profiles (S fuel) final_catalog s uid = Ok (tbl_profiles s)).
Proof.
  split; [reflexivity|]. split; [|split; [|split]].
  - apply final_conversations_view_never.
  - apply final_participants_view_never.
  - apply final_messages_view_never.
  - intros fuel s uid. apply read_profiles_all. right. right. left. reflexivity.
Qed.

(** C3.  The claim is that a Message insert is allowed exactly when the
    sender is the caller and the caller participates in the conversation.
    Alice participates in conversation 10 and sends under her own id, but the
    check of the last migration sub-selects [conversation_participants]
    through its self-referring SELECT policy and yields no decision. *)
Theorem final_send_check_fails_for_a_participant :
  is_participant sample_store alice 10 = true
  /\ forall fuel,
       check_insert_message fuel final_catalog sample_store (Some alice)
         (messages.mk 1001 10 alice [104; 105] (Some text) 2 None (Some false))
       = Err policy_recursion.
Proof.
  split; [reflexivity|]. intros fuel. apply final_send_check_never.
Qed.

(** C4.  The claim is that a Participant insert is allowed exactly when the
    row names the caller or the caller created the conversation.  Alice
    created conversation 10 and has joined it; her insert of a row for carol
    makes the check expand its sub-select on [conversations], whose SELECT
    policy sub-selects [conversation_participants], whose SELECT policy
    re-enters itself: no decision is reached, at any nesting depth.  The same
    happens to every signed-in caller, whatever the row and whatever the
    tables hold.  The check of [raspy_spark], which asks the
    [SECURITY DEFINER] helper [get_created_conversation_ids], allows alice's
    insert. *)
Theorem final_add_other_check_fails_for_the_creator :
  is_creator sample_store alice 10 = true
  /\ (forall fuel,
        check_insert_participant fuel final_catalog sample_store (Some alice)
          (cp.mk 102 10 carol 3)
        = Err policy_recursion)
  /\ (forall fuel s p r,
        check_insert_participant fuel final_catalog s (Some p) r
        = Err policy_recursion)
  /\ (forall fuel,
        check_insert_participant fuel raspy_spark_catalog sample_store (Some alice)
          (cp.mk 102 10 carol 3)
        = Ok true).
Proof.
  split; [reflexivity|]. split; [|split].
  - intros fuel. apply final_add_check_never.
  - intros fuel s p r. apply final_add_check_never.
  - intros fuel. rewrite raspy_spark_add_check. reflexivity.
Qed.



(** ** Sending a message *)

(** No migration creates an UPDATE policy on [conversations]. *)
Lemma no_update_policy_on_conversations cat uid :
  In cat [initial_catalog; raspy_spark_catalog; final_catalog] ->
  applicable UPDATE uid (on_conversations cat) = [].
Proof.
  intros [<-|[<-|[<-|[]]]]; destruct uid; reflexivity.
Qed.

Lemma update_conversation_row_not_permitted visible now t cid rows :
  map (update_conversation_row visible (fun _ => false) now t cid) rows = rows.
Proof.
  induction rows as [|r rows IH]; [reflexivity|].
  cbn [map]. rewrite IH. unfold update_conversation_row.
  rewrite andb_false_r. reflexivity.
Qed.

(** Without an UPDATE policy the client's update changes no row. *)
Lemma update_conversation_changes_nothing cat fuel w t cid :
  applicable UPDATE (session w) (on_conversations cat) = [] ->
  db (snd (db_update_conversation fuel cat w t cid)) = db w.
Proof.
  intros Hnone. unfold db_update_conversation.
  destruct (row_security SELECT _ _ _ _) as [visible|e]; [|reflexivity].
  unfold row_security. rewrite Hnone. cbn [permissive_or rbind].
  rewrite update_conversation_row_not_permitted.
  destruct w as [[ps cs cps ms] u c n]; reflexivity.
Qed.


Lemma trimStart_head s c rest :
  trimStart s = c :: rest -> is_js_whitespace c = false.
Proof.
  induction s as [|d s IH]; cbn [trimStart].
  - discriminate.
  - destruct (is_js_whitespace d) eqn:Hd.
    + exact IH.
    + intros Heq. injection Heq as -> _. exact Hd.
Qed.

(** A non-empty trimmed string holds a character that is not whitespace. *)
Lemma trim_not_whitespace_only s :
  trim s <> [] -> exists ch, In ch (trim s) /\ is_js_whitespace ch = false.
Proof.
  unfold trim, trimEnd. intros Hne.
  destruct (trimStart (rev (trimStart s))) as [|c rest] eqn:Hts.
  - exfalso. apply Hne. reflexivity.
  - exists c. split.
    + apply in_rev. rewrite rev_involutive. left. reflexivity.
    + eapply trimStart_head. exact Hts.
Qed.

Lemma truthy_false_iff s : truthy s = false <-> s = [].
Proof. destruct s; cbn; split; congruence. Qed.

(** C10.  [sendMessage] issues no insert when the trimmed text is empty or
    nobody is signed in; any insert it issues carries the trimmed text (which
    is non-empty and not whitespace only), the signed-in user's id as
    [sender_id], the conversation at hand and type 'text'; and with a user, a
    non-empty trimmed text and no send in flight the insert is issued. *)
Theorem sendMessage_inserts_trimmed_text_of_the_user :
  forall (W : Type) (h : backend W) (w : W)
         (conversationId : uuid) (user : option User) (message : jsstring) (sending : bool),
    ((trim message = [] \/ user = None) ->
       forall c cid sid ty,
         ~ In (insert_message c cid sid ty)
              (trace h (client.sendMessage conversationId user message sending) w))
    /\ (forall c cid sid ty,
          In (insert_message c cid sid ty)
             (trace h (client.sendMessage conversationId user message sending) w) ->
          exists u,
            user = Some u /\ sid = user_uid u /\ c = trim message
            /\ cid = conversationId /\ ty = text /\ c <> []
            /\ exists ch, In ch c /\ is_js_whitespace ch = false)
    /\ (forall u,
          user = Some u -> trim message <> [] -> sending = false ->
          In (insert_message (trim message) conversationId (user_uid u) text)
             (trace h (client.sendMessage conversationId user message sending) w)).
Proof.
  intros W h w conversationId user message sending.
  unfold trace, client.sendMessage.
  destruct user as [u|]; cbn.
  - destruct (truthy (trim message)) eqn:Htr; cbn.
    + assert (Hne : trim message <> []).
      { intros He. rewrite He in Htr. discriminate. }
      destruct sending; cbn.
      * answer h. repeat split.
        -- intros [He|Hu]; [contradiction | discriminate].
        -- intros c cid sid ty [Hq|[]]; discriminate.
        -- intros u' _ _ Hs; discriminate.
      * destruct (h preventDefault w) as [x0 w0]; cbn.
        destruct (h (setSending true) w0) as [x1 w1]; cbn.
        destruct (h (insert_message (trim message) conversationId (user_uid u) text) w1)
          as [r w2]; cbn.
        destruct r as [[]|e]; cbn; answer h; repeat split.
        all: try (intros [He|Hu]; [contradiction | discriminate]).
        all: try (intros u' Hu' _ _; injection Hu' as <-; right; right; left; reflexivity).
        all: intros c cid sid ty Hin;
          repeat (destruct Hin as [Hin|Hin]; try discriminate Hin);
          try contradiction;
          injection Hin as <- <- <- <-;
          exists u; repeat split; try assumption;
          apply trim_not_whitespace_only; assumption.
    + apply truthy_false_iff in Htr.
      answer h. repeat split.
      * intros _ c cid sid ty [Hq|[]]; discriminate.
      * intros c cid sid ty [Hq|[]]; discriminate.
      * intros u' _ Hne _. contradiction.
  - answer h. repeat split.
    + intros _ c cid sid ty [Hq|[]]; discriminate.
    + intros c cid sid ty [Hq|[]]; discriminate.
    + intros u' Hu'; discriminate.
Qed.

(** ** Soft-deleted messages and the message list *)

Lemma insert_by_created_at_In m x l :
  In x (insert_by_created_at m l) <-> x = m \/ In x l.
Proof.
  induction l as [|y l IH]; cbn.
  - intuition congruence.
  - destruct (N.leb _ _); cbn.
    + intuition congruence.
    + rewrite IH. intuition congruence.
Qed.

Lemma order_by_created_at_In x l :
  In x (order_by_created_at l) <-> In x l.
Proof.
  induction l as [|y l IH]; cbn.
  - reflexivity.
  - rewrite insert_by_created_at_In, IH. intuition congruence.
Qed.

Lemma selected_messages_In visible cid del m :
  In m (selected_messages visible cid del)
  <-> In m visible /\ matches_filters cid del m = true.
Proof.
  unfold selected_messages. rewrite order_by_created_at_In. apply filter_In.
Qed.

Lemma matches_filters_false_inv cid m :
  matches_filters cid false m = true ->
  messages.conversation_id m = cid /\ messages.is_deleted m = Some false.
Proof.
  unfold matches_filters. intros H.
  apply andb_prop in H as [Hc Hd]. apply N.eqb_eq in Hc.
  destruct (messages.is_deleted m) as [[|]|]; try discriminate.
  split; [exact Hc | reflexivity].
Qed.

Lemma soft_delete_message_flags mid s m :
  In m (tbl_messages (soft_delete_message mid s)) ->
  messages.id m = mid -> messages.is_deleted m = Some true.
Proof.
  cbn. intros Hin Hid. apply in_map_iff in Hin as [m0 [Hm0 _]].
  destruct (N.eqb (messages.id m0) mid) eqn:He.
  - subst m. reflexivity.
  - subst m. apply N.eqb_neq in He. contradiction.
Qed.

(** C8.  Soft-deleting twice is the same as once, sets the flag and touches
    no other column; the message query of the list keeps only rows whose flag
    is false, so a soft-deleted message is not listed; and [fetchMessages]
    issues that query and shows what it returns. *)
Theorem soft_delete_idempotent_and_not_listed :
  (forall m,
      soft_delete (soft_delete m) = soft_delete m
      /\ messages.is_deleted (soft_delete m) = Some true
      /\ messages.id (soft_delete m) = messages.id m
      /\ messages.conversation_id (soft_delete m) = messages.conversation_id m
      /\ messages.sender_id (soft_delete m) = messages.sender_id m
      /\ messages.content (soft_delete m) = messages.content m
      /\ messages.type (soft_delete m) = messages.type m
      /\ messages.created_at (soft_delete m) = messages.created_at m
      /\ messages.edited_at (soft_delete m) = messages.edited_at m)
  /\ (forall mid s,
        soft_delete_message mid (soft_delete_message mid s) = soft_delete_message mid s)
  /\ (forall visible cid,
        Forall (fun m => In m visible
                         /\ messages.is_deleted m = Some false
                         /\ messages.conversation_id m = cid)
               (selected_messages visible cid false))
  /\ (forall mid s profs cid,
        existsb (N.eqb mid)
          (map mv_id (messages_query (tbl_messages (soft_delete_message mid s)) profs cid false))
        = false)
  /\ (forall (W : Type) (h : backend W) (w : W) cid,
        trace h (client.fetchMessages cid) w
        = select_messages cid false
            :: match fst (h (select_messages cid false) w) with
               | Ok data => [setMessages data; setLoading false]
               | Err e => [console_error "Error fetching messages:" e]
               end).
Proof.
  split; [|split; [|split; [|split]]].
  - intros m. repeat split.
  - intros mid s. unfold soft_delete_message. cbn. f_equal.
    rewrite map_map. apply map_ext. intros m.
    destruct (N.eqb (messages.id m) mid) eqn:He; cbn.
    + rewrite He. reflexivity.
    + rewrite He. reflexivity.
  - intros visible cid. apply Forall_forall. intros m Hin.
    apply selected_messages_In in Hin as [Hv Hf].
    apply matches_filters_false_inv in Hf as [Hc Hd]. auto.
  - intros mid s profs cid. unfold messages_query. rewrite map_map.
    destruct (existsb _ _) eqn:Hex; [|reflexivity].
    apply existsb_exists in Hex as [i [Hin Hi]].
    apply in_map_iff in Hin as [m [Hm Hsel]]. cbn in Hm. subst i.
    apply selected_messages_In in Hsel as [Hv Hf].
    apply matches_filters_false_inv in Hf as [_ Hd].
    apply N.eqb_eq in Hi.
    rewrite (soft_delete_message_flags mid s m Hv (eq_sym Hi)) in Hd. discriminate.
  - intros W h w cid. unfold trace, client.fetchMessages. cbn.
    destruct (h (select_messages cid false) w) as [r w1]; cbn.
    destruct r as [data|e]; cbn; answer h; reflexivity.
Qed.

(** ** Provisioning *)

(** C9 as stated fails: without a requested username but with a requested
    display name, the profile gets that display name, not the local part. *)
Lemma provisioning_takes_requested_display_name :
  json_get_text (Some [("display_name", jstring "Al")]) "username" = None
  /\ handle_new_user 5 (mkStore [] [] [] [])
       (auth_users.mk 1 (Some "alice@example.com") (Some [("display_name", jstring "Al")]))
     = Ok (mkStore [profiles.mk 1 "alice" (Some "Al") None (Some "online") (Some 5) 5 5]
                   [] [] []).
Proof. split; reflexivity. Qed.

(** C9, amended.  For a new principal with email "alice@example.com" whose
    metadata requests neither a username nor a display name, on a store where
    the id and the username "alice" are free, the trigger adds exactly one
    profile, with that id, username "alice" and display name "alice"; after
    it, provisioning any principal whose email has the local part "alice" and
    who requests no username fails on the uniqueness of usernames. *)
Theorem provisioning_defaults_to_local_part :
  forall now s NEW,
    auth_users.email NEW = Some "alice@example.com" ->
    json_get_text (auth_users.raw_user_meta_data NEW) "username" = None ->
    json_get_text (auth_users.raw_user_meta_data NEW) "display_name" = None ->
    existsb (fun p => N.eqb (profiles.id p) (auth_users.id NEW)) (tbl_profiles s) = false ->
    existsb (fun p => String.eqb (profiles.username p) "alice") (tbl_profiles s) = false ->
    exists s',
      handle_new_user now s NEW = Ok s'
      /\ tbl_profiles s' = tbl_profiles s ++ [alice_profile (auth_users.id NEW) now]
      /\ tbl_conversations s' = tbl_conversations s
      /\ tbl_conversation_participants s' = tbl_conversation_participants s
      /\ tbl_messages s' = tbl_messages s
      /\ forall now' NEW2 email2,
           auth_users.email NEW2 = Some email2 ->
           split_part email2 "@"%char 1 = "alice" ->
           json_get_text (auth_users.raw_user_meta_data NEW2) "username" = None ->
           handle_new_user now' s' NEW2 = Err unique_violation.
Proof.
  intros now s NEW Hemail Hu Hd Hid Hname.
  unfold handle_new_user, email_local_part. rewrite Hu, Hd, Hemail. cbn [option_map COALESCE].
  change (split_part "alice@example.com" "@"%char 1) with "alice".
  unfold insert_profile. rewrite Hid, Hname. cbn [orb].
  eexists. split; [reflexivity|]. cbn [tbl_profiles tbl_conversations
    tbl_conversation_participants tbl_messages].
  repeat split.
  intros now' NEW2 email2 He2 Hl2 Hu2.
  rewrite Hu2, He2. cbn [option_map COALESCE]. rewrite Hl2.
  rewrite (existsb_app (fun p => String.eqb (profiles.username p) "alice")).
  cbn. rewrite !orb_true_r. reflexivity.
Qed.

(** The amended C9 on an empty store, for principal 1 without metadata. *)
Lemma provisioning_defaults_to_local_part_witness :
  exists s',
    handle_new_user 5 (mkStore [] [] [] []) (auth_users.mk 1 (Some "alice@example.com") None)
    = Ok s'
    /\ tbl_profiles s' = [] ++ [alice_profile 1 5]
    /\ tbl_conversations s' = []
    /\ tbl_conversation_participants s' = []
    /\ tbl_messages s' = []
    /\ forall now' NEW2 email2,
         auth_users.email NEW2 = Some email2 ->
         split_part email2 "@"%char 1 = "alice" ->
         json_get_text (auth_users.raw_user_meta_data NEW2) "username" = None ->
         handle_new_user now' s' NEW2 = Err unique_violation.
Proof.
  apply (provisioning_defaults_to_local_part 5 (mkStore [] [] [] [])
           (auth_users.mk 1 (Some "alice@example.com") None));
    reflexivity.
Defined.

(** ** De-duplication of DM conversations *)

Lemma count_of_bump k id acc :
  count_of k (client.bump id acc) = count_of k acc + (if N.eqb id k then 1 else 0).
Proof.
  unfold count_of. induction acc as [|[k0 n] acc IH]; cbn.
  - destruct (N.eqb id k); reflexivity.
  - destruct (N.eqb k0 id) eqn:Hid; cbn.
    + apply N.eqb_eq in Hid. subst k0.
      destruct (N.eqb id k); [reflexivity | rewrite N.add_0_r; reflexivity].
    + destruct (N.eqb k0 k) eqn:Hk.
      * apply N.eqb_eq in Hk. subst k0. rewrite (N.eqb_sym id k), Hid.
        rewrite N.add_0_r. reflexivity.
      * exact IH.
Qed.

Lemma count_of_fold k rows acc :
  count_of k (fold_left (fun a item => client.bump item a) rows acc)
  = count_of k acc + N.of_nat (count_occ N.eq_dec rows k).
Proof.
  revert acc. induction rows as [|r rows IH]; intros acc; cbn [fold_left count_occ].
  - cbn. rewrite N.add_0_r. reflexivity.
  - rewrite IH, count_of_bump.
    destruct (N.eq_dec r k) as [->|Hne].
    + rewrite N.eqb_refl. lia.
    + apply N.eqb_neq in Hne. rewrite Hne. lia.
Qed.

Lemma count_of_conversationCounts k rows :
  count_of k (client.conversationCounts rows) = N.of_nat (count_occ N.eq_dec rows k).
Proof. unfold client.conversationCounts. rewrite count_of_fold. reflexivity. Qed.

Lemma bump_keys k id acc :
  In k (map fst (client.bump id acc)) <-> k = id \/ In k (map fst acc).
Proof.
  induction acc as [|[k0 n] acc IH]; cbn.
  - intuition congruence.
  - destruct (N.eqb k0 id) eqn:Hid; cbn.
    + apply N.eqb_eq in Hid. subst k0. intuition congruence.
    + rewrite IH. intuition congruence.
Qed.

Lemma bump_keys_NoDup id acc :
  NoDup (map fst acc) -> NoDup (map fst (client.bump id acc)).
Proof.
  induction acc as [|[k0 n] acc IH]; cbn; intros Hnd.
  - constructor; [intros [] | constructor].
  - inversion Hnd as [|? ? Hnotin Hnd']; subst.
    destruct (N.eqb k0 id) eqn:Hid; cbn.
    + constructor; assumption.
    + constructor.
      * rewrite bump_keys. intros [->|Hin]; [|contradiction].
        rewrite N.eqb_refl in Hid. discriminate.
      * apply IH. exact Hnd'.
Qed.

Lemma conversationCounts_keys_NoDup rows :
  NoDup (map fst (client.conversationCounts rows)).
Proof.
  unfold client.conversationCounts.
  assert (H : forall acc, NoDup (map fst acc) ->
                NoDup (map fst (fold_left (fun a item => client.bump item a) rows acc))).
  { induction rows as [|r rows IH]; intros acc Hacc; cbn.
    - exact Hacc.
    - apply IH. apply bump_keys_NoDup. exact Hacc. }
  apply H. constructor.
Qed.

Lemma count_of_In k n counts :
  NoDup (map fst counts) -> In (k, n) counts -> count_of k counts = n.
Proof.
  unfold count_of. induction counts as [|[k0 n0] counts IH]; cbn; intros Hnd Hin.
  - contradiction.
  - inversion Hnd as [|? ? Hnotin Hnd']; subst.
    destruct Hin as [Heq|Hin].
    + injection Heq as -> ->. rewrite N.eqb_refl. reflexivity.
    + destruct (N.eqb k0 k) eqn:Hk.
      * apply N.eqb_eq in Hk. subst k0. exfalso. apply Hnotin.
        apply in_map_iff. exists (k, n). split; [reflexivity | exact Hin].
      * apply IH; assumption.
Qed.

Lemma count_of_find k counts :
  count_of k counts <> 0 -> In (k, count_of k counts) counts.
Proof.
  unfold count_of. intros Hne.
  destruct (find (fun kn => N.eqb (fst kn) k) counts) as [[k' n]|] eqn:Hf.
  - apply find_some in Hf as [Hin Hk]. cbn in Hk. apply N.eqb_eq in Hk. subst k'.
    exact Hin.
  - contradiction.
Qed.

(** The key picked has count 2. *)
Lemma find_count_2_sound rows id :
  client.find_count_2 (client.conversationCounts rows) = Some id ->
  count_occ N.eq_dec rows id = 2%nat.
Proof.
  unfold client.find_count_2. intros Hf.
  destruct (find _ _) as [[k n]|] eqn:Hfind; [|discriminate].
  cbn in Hf. injection Hf as ->.
  apply find_some in Hfind as [Hin Hn]. cbn in Hn. apply N.eqb_eq in Hn. subst n.
  apply count_of_In in Hin; [|apply conversationCounts_keys_NoDup].
  rewrite count_of_conversationCounts in Hin. lia.
Qed.

(** Some key is picked as soon as one has count 2. *)
Lemma find_count_2_complete rows d :
  count_occ N.eq_dec rows d = 2%nat ->
  exists id, client.find_count_2 (client.conversationCounts rows) = Some id.
Proof.
  intros Hd. unfold client.find_count_2.
  destruct (find _ _) as [[k n]|] eqn:Hfind.
  - exists k. reflexivity.
  - exfalso.
    assert (Hc : count_of d (client.conversationCounts rows) = 2).
    { rewrite count_of_conversationCounts, Hd. reflexivity. }
    assert (Hin : In (d, 2) (client.conversationCounts rows)).
    { rewrite <- Hc. apply count_of_find. rewrite Hc. discriminate. }
    apply (find_none _ _ Hfind) in Hin. cbn in Hin. discriminate.
Qed.

Lemma has_row_In visible c u :
  has_row visible c u = true <-> In (c, u) (map membership visible).
Proof.
  unfold has_row. rewrite existsb_exists, in_map_iff. split.
  - intros [r [Hin Hr]]. apply andb_prop in Hr as [Hc Hu].
    apply N.eqb_eq in Hc, Hu. exists r. unfold membership. rewrite Hc, Hu. auto.
  - intros [r [Hr Hin]]. unfold membership in Hr. injection Hr as Hc Hu.
    exists r. rewrite Hc, Hu, !N.eqb_refl. auto.
Qed.

Lemma participants_in_cons ids r visible :
  participants_in ids (r :: visible)
  = if existsb (N.eqb (cp.user_id r)) ids
    then cp.conversation_id r :: participants_in ids visible
    else participants_in ids visible.
Proof.
  unfold participants_in. cbn [filter].
  destruct (existsb (N.eqb (cp.user_id r)) ids); reflexivity.
Qed.

(** The rows fetched for [a] and [b] list a conversation once per row of
    [a] and once per row of [b] in it. *)
Lemma participants_in_count a b visible c :
  a <> b ->
  count_occ N.eq_dec (participants_in [a; b] visible) c
  = (count_occ membership_eq_dec (map membership visible) (c, a)
     + count_occ membership_eq_dec (map membership visible) (c, b))%nat.
Proof.
  intros Hab.
  induction visible as [|r visible IH]; [reflexivity|].
  rewrite participants_in_cons. cbn [map existsb]. unfold membership at 1 3.
  destruct (N.eqb (cp.user_id r) a) eqn:Ha; [|destruct (N.eqb (cp.user_id r) b) eqn:Hb].
  - apply N.eqb_eq in Ha. cbn [orb].
    destruct (N.eq_dec (cp.conversation_id r) c) as [Hc|Hc].
    + rewrite count_occ_cons_eq by exact Hc.
      rewrite (count_occ_cons_eq membership_eq_dec) by (rewrite Ha, Hc; reflexivity).
      rewrite (count_occ_cons_neq membership_eq_dec) by (rewrite Ha; congruence).
      unfold uuid in *; lia.
    + rewrite count_occ_cons_neq by exact Hc.
      rewrite !(count_occ_cons_neq membership_eq_dec) by congruence.
      unfold uuid in *; lia.
  - apply N.eqb_eq in Hb. apply N.eqb_neq in Ha. cbn [orb].
    destruct (N.eq_dec (cp.conversation_id r) c) as [Hc|Hc].
    + rewrite count_occ_cons_eq by exact Hc.
      rewrite (count_occ_cons_neq membership_eq_dec) by congruence.
      rewrite (count_occ_cons_eq membership_eq_dec) by (rewrite Hb, Hc; reflexivity).
      unfold uuid in *; lia.
    + rewrite count_occ_cons_neq by exact Hc.
      rewrite !(count_occ_cons_neq membership_eq_dec) by congruence.
      unfold uuid in *; lia.
  - apply N.eqb_neq in Ha, Hb. cbn [orb].
    rewrite !(count_occ_cons_neq membership_eq_dec) by congruence.
    unfold uuid in *; lia.
Qed.

(** With one row per (conversation, user), a conversation is listed twice
    exactly when both [a] and [b] have a row in it. *)
Lemma participants_in_twice a b visible c :
  a <> b ->
  NoDup (map membership visible) ->
  count_occ N.eq_dec (participants_in [a; b] visible) c = 2%nat
  <-> has_row visible c a = true /\ has_row visible c b = true.
Proof.
  intros Hab Hnd. rewrite participants_in_count by exact Hab.
  rewrite !has_row_In.
  rewrite !(count_occ_In membership_eq_dec).
  pose proof (proj1 (NoDup_count_occ membership_eq_dec _) Hnd (c, a)).
  pose proof (proj1 (NoDup_count_occ membership_eq_dec _) Hnd (c, b)).
  unfold uuid in *. lia.
Qed.

(** C6 as stated fails: conversation 10 is a DM whose participants are
    exactly alice and bob, yet alice's lookup for bob reuses conversation 20, a
    group that also holds carol and whose rows come first.  The same happens
    against the database under the policies of [raspy_spark]. *)
Lemma dedup_reuses_group_instead_of_dm :
  members group_then_dm 10 = [alice; bob]
  /\ members group_then_dm 20 = [alice; bob; carol]
  /\ trace (lookup_backend group_then_dm)
           (client.createConversation (Some (mkUser alice)) false bob) tt
     = [ setCreating true; select_participants_in [alice; bob];
         onConversationCreated 20; onOpenChange false; setCreating false ]
  /\ trace (rls_backend 1 raspy_spark_catalog)
           (client.createConversation (Some (mkUser alice)) false bob)
           (mkWorld group_then_dm_store (Some alice) 7 2000)
     = [ setCreating true; select_participants_in [alice; bob];
         onConversationCreated 20; onOpenChange false; setCreating false ].
Proof. repeat split. Qed.

(** C6, amended.  Let the lookup return the conversation ids of the visible
    Participant rows of [a] and [b] (distinct principals, one row per
    conversation and user), and let [a] and [b] both have a row in
    conversation [d].  Then [createConversation] issues no insert and hands
    over a conversation in which both [a] and [b] have a row, whoever else
    participates in it; it is [d] when [d] is the only such conversation. *)
Theorem dedup_reuses_a_conversation_of_both :
  forall (W : Type) (h : backend W) (w : W) (a b : uuid) (visible : list cp.row) (d : uuid),
    a <> b ->
    NoDup (map membership visible) ->
    (forall w', fst (h (select_participants_in [a; b]) w')
                = Ok (participants_in [a; b] visible)) ->
    has_row visible d a = true ->
    has_row visible d b = true ->
    exists id,
      trace h (client.createConversation (Some (mkUser a)) false b) w
      = [ setCreating true; select_participants_in [a; b];
          onConversationCreated id; onOpenChange false; setCreating false ]
      /\ has_row visible id a = true
      /\ has_row visible id b = true
      /\ ((forall c, has_row visible c a = true -> has_row visible c b = true -> c = d)
          -> id = d).
Proof.
  intros W h w a b visible d Hab Hnd Hh Hda Hdb.
  assert (Hd2 : count_occ N.eq_dec (participants_in [a; b] visible) d = 2%nat).
  { apply participants_in_twice; auto. }
  destruct (find_count_2_complete _ _ Hd2) as [id Hid].
  assert (Hlen : Nat.leb 2 (List.length (participants_in [a; b] visible)) = true).
  { apply Nat.leb_le. rewrite <- Hd2. apply count_occ_bound. }
  assert (Hex : client.existingConversationId (Ok (participants_in [a; b] visible)) = Some id).
  { unfold client.existingConversationId. rewrite Hlen. exact Hid. }
  pose proof (find_count_2_sound _ _ Hid) as Hid2.
  apply participants_in_twice in Hid2 as [Hia Hib]; auto.
  exists id. split; [|split; [exact Hia | split; [exact Hib|]]].
  - unfold trace, client.createConversation.
    cbn -[client.existingConversationId].
    destruct (h (setCreating true) w) as [x0 w0].
    cbn -[client.existingConversationId].
    specialize (Hh w0).
    destruct (h (select_participants_in [a; b]) w0) as [r w1].
    cbn -[client.existingConversationId] in *. subst r. rewrite Hex.
    cbn. answer h. reflexivity.
  - intros Huniq. apply Huniq; assumption.
Qed.

(** The amended C6 for alice looking up bob when conversation 10 is their
    only common conversation. *)
Lemma dedup_reuses_a_conversation_of_both_witness :
  exists id,
    trace (lookup_backend (tbl_conversation_participants sample_store))
          (client.createConversation (Some (mkUser alice)) false bob) tt
    = [ setCreating true; select_participants_in [alice; bob];
        onConversationCreated id; onOpenChange false; setCreating false ]
    /\ has_row (tbl_conversation_participants sample_store) id alice = true
    /\ has_row (tbl_conversation_participants sample_store) id bob = true
    /\ ((forall c, has_row (tbl_conversation_participants sample_store) c alice = true ->
                   has_row (tbl_conversation_participants sample_store) c bob = true ->
                   c = 10)
        -> id = 10).
Proof.
  apply (dedup_reuses_a_conversation_of_both unit
           (lookup_backend (tbl_conversation_participants sample_store)) tt
           alice bob (tbl_conversation_participants sample_store) 10).
  - discriminate.
  - repeat constructor; cbn; intuition discriminate.
  - reflexivity.
  - reflexivity.
  - reflexivity.
Defined.

(** * Further properties of the client and of the policies *)

(** ** The text [sendMessage] stores *)

Lemma trimStart_split s :
  exists pre, s = pre ++ trimStart s /\ all_whitespace pre = true.
Proof.
  induction s as [|c s [pre [Hs Hpre]]].
  - exists []. split; reflexivity.
  - cbn [trimStart]. destruct (is_js_whitespace c) eqn:Hc.
    + exists (c :: pre). split.
      * cbn [app]. rewrite <- Hs. reflexivity.
      * unfold all_whitespace in *. cbn [forallb]. rewrite Hc. exact Hpre.
    + exists []. split; reflexivity.
Qed.

Lemma all_whitespace_rev s : all_whitespace (rev s) = all_whitespace s.
Proof.
  unfold all_whitespace. induction s as [|c s IH]; [reflexivity|].
  cbn [rev forallb]. rewrite forallb_app, IH. cbn [forallb].
  rewrite andb_true_r. apply andb_comm.
Qed.

Lemma trimEnd_split s :
  exists post, s = trimEnd s ++ post /\ all_whitespace post = true.
Proof.
  unfold trimEnd. destruct (trimStart_split (rev s)) as [pre [Hs Hpre]].
  exists (rev pre). split.
  - rewrite <- rev_app_distr, <- Hs, rev_involutive. reflexivity.
  - rewrite all_whitespace_rev. exact Hpre.
Qed.

Lemma trimStart_fixed s :
  match s with [] => True | c :: _ => is_js_whitespace c = false end ->
  trimStart s = s.
Proof. destruct s as [|c s]; cbn [trimStart]; [reflexivity|]. intros ->. reflexivity. Qed.

Lemma trimStart_idempotent s : trimStart (trimStart s) = trimStart s.
Proof.
  apply trimStart_fixed. destruct (trimStart s) as [|c t] eqn:Hs; [exact I|].
  eapply trimStart_head. exact Hs.
Qed.

(** Stripping the front of a string that ends in a character which is not
    whitespace keeps that last character. *)
Lemma trimStart_keeps_last l c :
  is_js_whitespace c = false -> exists y, trimStart (l ++ [c]) = y ++ [c].
Proof.
  intros Hc. induction l as [|d l [y Hy]]; cbn [app trimStart].
  - rewrite Hc. exists []. reflexivity.
  - destruct (is_js_whitespace d).
    + exists y. exact Hy.
    + exists (d :: l). reflexivity.
Qed.

Lemma trim_no_leading_whitespace s : trimStart (trim s) = trim s.
Proof.
  unfold trim, trimEnd. apply trimStart_fixed.
  destruct (trimStart s) as [|c t] eqn:Hs; [exact I|].
  pose proof (trimStart_head _ _ _ Hs) as Hc.
  cbn [rev]. destruct (trimStart_keeps_last (rev t) c Hc) as [y Hy].
  rewrite Hy, rev_app_distr. cbn [rev app]. exact Hc.
Qed.

Lemma trimEnd_idempotent s : trimEnd (trimEnd s) = trimEnd s.
Proof.
  unfold trimEnd. rewrite rev_involutive, trimStart_idempotent. reflexivity.
Qed.

Lemma trim_no_trailing_whitespace s : trimEnd (trim s) = trim s.
Proof. unfold trim. apply trimEnd_idempotent. Qed.

Lemma trim_split s :
  exists pre post,
    s = pre ++ trim s ++ post
    /\ all_whitespace pre = true /\ all_whitespace post = true.
Proof.
  destruct (trimStart_split s) as [pre [Hs Hpre]].
  destruct (trimEnd_split (trimStart s)) as [post [Ht Hpost]].
  exists pre, post. unfold trim. rewrite <- Ht. auto.
Qed.

(** X1.  The content of every insert [sendMessage] issues is the typed text
    with whitespace removed at its two ends and nothing else: the text is
    [pre ++ content ++ post] with [pre] and [post] whitespace only, and the
    content neither starts nor ends with whitespace (trimming it again
    changes nothing). *)
Theorem sendMessage_content_is_the_text_without_its_margins :
  forall (W : Type) (h : backend W) (w : W)
         (conversationId : uuid) (user : option User) (message : jsstring) (sending : bool),
    Forall (fun q =>
              match q with
              | insert_message c _ _ _ =>
                  (exists pre post,
                      message = pre ++ c ++ post
                      /\ all_whitespace pre = true /\ all_whitespace post = true)
                  /\ trimStart c = c /\ trimEnd c = c /\ trim c = c
              | _ => True
              end)
           (trace h (client.sendMessage conversationId user message sending) w).
Proof.
  intros W h w conversationId user message sending.
  assert (Hc : (exists pre post,
                   message = pre ++ trim message ++ post
                   /\ all_whitespace pre = true /\ all_whitespace post = true)
               /\ trimStart (trim message) = trim message
               /\ trimEnd (trim message) = trim message
               /\ trim (trim message) = trim message).
  { split; [apply trim_split|]. split; [apply trim_no_leading_whitespace|].
    split; [apply trim_no_trailing_whitespace|].
    unfold trim at 1. rewrite trim_no_leading_whitespace.
    apply trim_no_trailing_whitespace. }
  unfold trace, client.sendMessage.
  destruct user as [u|]; cbn.
  - destruct (negb (truthy (trim message)) || sending); cbn.
    + answer h. repeat (apply Forall_cons; [exact I|]). apply Forall_nil.
    + destruct (h preventDefault w) as [x0 w0]; cbn.
      destruct (h (setSending true) w0) as [x1 w1]; cbn.
      destruct (h (insert_message (trim message) conversationId (user_uid u) text) w1)
        as [r w2]; cbn.
      destruct r as [[]|e]; cbn; answer h;
        repeat (apply Forall_cons; [first [exact I | exact Hc]|]); apply Forall_nil.
  - answer h. repeat (apply Forall_cons; [exact I|]). apply Forall_nil.
Qed.

(** ** How [sendMessage] and [createConversation] proceed *)

(** Settles a statement about a run whose requests are all known. *)
Ltac settle_run :=
  cbn; repeat split; intros;
  repeat match goal with
         | H : _ \/ _ |- _ => destruct H
         | H : False |- _ => destruct H
         | H : In _ _ |- _ => cbn in H
         end;
  try discriminate; try lia; try reflexivity;
  try match goal with
      | H : _ = _ :> request |- _ => injection H as; subst
      end;
  try (cbn; tauto); try lia; auto.

(** X2.  How a call of [sendMessage] proceeds, whatever the environment
    answers.  Without a user, with a text that is empty once trimmed, or
    while a send is in flight, it does nothing beyond [preventDefault].
    Otherwise it raises the sending flag and issues the insert; when the
    insert is answered with an error it logs it, shows the error toast and
    lowers the flag, leaving the typed text and the conversation alone; when
    the insert succeeds it clears the typed text, reads the clock, issues the
    update of the conversation at hand with the time just read, and lowers
    the flag.  So a call issues at most one insert, ends by lowering the flag
    once it has raised it, and any update comes after the clearing of the
    text, which comes after the insert. *)
Theorem sendMessage_flow :
  forall (W : Type) (h : backend W) (w : W)
         (conversationId : uuid) (user : option User) (message : jsstring) (sending : bool),
    ((user = None \/ truthy (trim message) = false \/ sending = true) ->
       trace h (client.sendMessage conversationId user message sending) w
       = [preventDefault])
    /\ (forall u,
          user = Some u -> truthy (trim message) = true -> sending = false ->
          match fst (h (insert_message (trim message) conversationId (user_uid u) text)
                       (after h [preventDefault; setSending true] w)) with
          | Ok _ =>
              trace h (client.sendMessage conversationId user message sending) w
              = [ preventDefault; setSending true;
                  insert_message (trim message) conversationId (user_uid u) text;
                  setMessage []; new_Date;
                  update_conversation_updated_at
                    (fst (h new_Date
                            (after h [ preventDefault; setSending true;
                                       insert_message (trim message) conversationId
                                                      (user_uid u) text;
                                       setMessage [] ] w)))
                    conversationId;
                  setSending false ]
          | Err e =>
              trace h (client.sendMessage conversationId user message sending) w
              = [ preventDefault; setSending true;
                  insert_message (trim message) conversationId (user_uid u) text;
                  console_error "Error sending message:" e;
                  toast_destructive "Failed to send message" e;
                  setSending false ]
          end)
    /\ (issued is_insert_message
          (trace h (client.sendMessage conversationId user message sending) w) <= 1)%nat
    /\ (In (setSending true)
           (trace h (client.sendMessage conversationId user message sending) w) ->
        last (trace h (client.sendMessage conversationId user message sending) w)
             preventDefault
        = setSending false)
    /\ (issued is_toast_destructive
          (trace h (client.sendMessage conversationId user message sending) w) <> 0%nat ->
        issued is_setMessage
          (trace h (client.sendMessage conversationId user message sending) w) = 0%nat
        /\ issued is_update_conversation
             (trace h (client.sendMessage conversationId user message sending) w) = 0%nat)
    /\ (forall t c,
          In (update_conversation_updated_at t c)
             (trace h (client.sendMessage conversationId user message sending) w) ->
          c = conversationId
          /\ issued is_toast_destructive
               (trace h (client.sendMessage conversationId user message sending) w) = 0%nat
          /\ exists before between,
               trace h (client.sendMessage conversationId user message sending) w
               = before ++ setMessage [] :: between
                   ++ [update_conversation_updated_at t c; setSending false]
               /\ issued is_insert_message before = 1%nat
               /\ issued is_update_conversation (before ++ between) = 0%nat)
    /\ (issued is_insert_message
          (trace h (client.sendMessage conversationId user message sending) w) = 0%nat ->
        trace h (client.sendMessage conversationId user message sending) w
        = [preventDefault]).
Proof.
  intros W h w conversationId user message sending.
  split; [|split].
  - unfold trace, client.sendMessage.
    intros [->|[Htext| ->]].
    + cbn. answer h. reflexivity.
    + destruct user; cbn -[trim truthy]; [rewrite Htext|]; cbn; answer h; reflexivity.
    + destruct user; cbn -[trim truthy]; [rewrite orb_true_r|]; cbn; answer h; reflexivity.
  - intros u -> Htext ->.
    unfold trace, client.sendMessage, after. cbn -[trim truthy].
    rewrite Htext. cbn -[trim].
    destruct (h preventDefault w) as [x0 w0]; cbn -[trim].
    destruct (h (setSending true) w0) as [x1 w1]; cbn -[trim].
    destruct (h (insert_message (trim message) conversationId (user_uid u) text) w1)
      as [r w2]; cbn -[trim].
    destruct r as [[]|e]; cbn -[trim]; answer h; reflexivity.
  - unfold trace, client.sendMessage, issued.
    destruct user as [u|]; cbn -[trim truthy]; [|answer h; settle_run].
    destruct (negb (truthy (trim message)) || sending); cbn -[trim];
      [answer h; settle_run|].
    destruct (h preventDefault w) as [x0 w0]; cbn -[trim].
    destruct (h (setSending true) w0) as [x1 w1]; cbn -[trim].
    destruct (h (insert_message (trim message) conversationId (user_uid u) text) w1)
      as [r w2]; cbn -[trim].
    destruct r as [[]|e]; cbn -[trim]; answer h; [|settle_run].
    split; [settle_run|]. split; [settle_run|]. split; [settle_run|].
    split; [|settle_run].
    intros t c Hin. cbn in Hin.
    repeat (destruct Hin as [Hin|Hin]; try discriminate Hin); try contradiction.
    injection Hin as <- <-.
    split; [reflexivity|]. split; [reflexivity|].
    exists [ preventDefault; setSending true;
             insert_message (trim message) conversationId (user_uid u) text ],
           [ new_Date ].
    repeat split.
Qed.

(** X3.  How a call of [createConversation] proceeds, whatever the
    environment answers.  Without a user or while a creation is in flight it
    does nothing.  Otherwise it raises the creating flag and looks up the
    conversations of the two principals; if the lookup yields a conversation
    to reuse it hands that one over and closes the dialog; if not it inserts
    a conversation, then the two participants (the user and the other
    principal) under the id the database returned for that conversation,
    and then hands that id over, closes the dialog and confirms; an error
    from either insert is logged and shown instead.  In every case it ends by
    lowering the flag. *)
Theorem createConversation_flow :
  forall (W : Type) (h : backend W) (w : W)
         (user : option User) (creating : bool) (otherUserId : uuid),
    ((user = None \/ creating = true) ->
       trace h (client.createConversation user creating otherUserId) w = [])
    /\ (forall u,
          user = Some u -> creating = false ->
          match client.existingConversationId
                  (fst (h (select_participants_in [user_uid u; otherUserId])
                          (after h [setCreating true] w))) with
          | Some id =>
              (trace h (client.createConversation user creating otherUserId) w)
              = [ setCreating true; select_participants_in [user_uid u; otherUserId];
                  onConversationCreated id; onOpenChange false; setCreating false ]
          | None =>
              match fst (h (insert_conversation dm (user_uid u))
                           (after h [ setCreating true;
                                      select_participants_in [user_uid u; otherUserId] ]
                                  w)) with
              | Err e =>
                  (trace h (client.createConversation user creating otherUserId) w)
                  = [ setCreating true; select_participants_in [user_uid u; otherUserId];
                      insert_conversation dm (user_uid u);
                      console_error "Error creating conversation:" e;
                      toast_destructive "Failed to create conversation" e;
                      setCreating false ]
              | Ok conversation =>
                  match fst (h (insert_participants
                                  [ (conversations.id conversation, user_uid u);
                                    (conversations.id conversation, otherUserId) ])
                               (after h [ setCreating true;
                                          select_participants_in
                                            [user_uid u; otherUserId];
                                          insert_conversation dm (user_uid u) ] w)) with
                  | Err e =>
                      (trace h (client.createConversation user creating otherUserId) w)
                      = [ setCreating true;
                          select_participants_in [user_uid u; otherUserId];
                          insert_conversation dm (user_uid u);
                          insert_participants
                            [ (conversations.id conversation, user_uid u);
                              (conversations.id conversation, otherUserId) ];
                          console_error "Error creating conversation:" e;
                          toast_destructive "Failed to create conversation" e;
                          setCreating false ]
                  | Ok _ =>
                      (trace h (client.createConversation user creating otherUserId) w)
                      = [ setCreating true;
                          select_participants_in [user_uid u; otherUserId];
                          insert_conversation dm (user_uid u);
                          insert_participants
                            [ (conversations.id conversation, user_uid u);
                              (conversations.id conversation, otherUserId) ];
                          onConversationCreated (conversations.id conversation);
                          onOpenChange false;
                          toast "Conversation created" "You can now start chatting!";
                          setCreating false ]
                  end
              end
          end)
    /\ (In (setCreating true) (trace h (client.createConversation user creating otherUserId) w) ->
        last (trace h (client.createConversation user creating otherUserId) w) (setCreating true) = setCreating false)
    /\ (issued is_insert_conversation (trace h (client.createConversation user creating otherUserId) w) <= 1
        /\ issued is_insert_participants (trace h (client.createConversation user creating otherUserId) w) <= 1
        /\ issued is_onConversationCreated (trace h (client.createConversation user creating otherUserId) w) <= 1)%nat
    /\ (forall rows,
          In (insert_participants rows) (trace h (client.createConversation user creating otherUserId) w) ->
          exists u conversation,
            user = Some u
            /\ fst (h (insert_conversation dm (user_uid u))
                      (after h [ setCreating true;
                                 select_participants_in [user_uid u; otherUserId] ] w))
               = Ok conversation
            /\ rows = [ (conversations.id conversation, user_uid u);
                        (conversations.id conversation, otherUserId) ])
    /\ (forall id,
          In (onConversationCreated id) (trace h (client.createConversation user creating otherUserId) w) ->
          In (onOpenChange false) (trace h (client.createConversation user creating otherUserId) w)
          /\ issued is_toast_destructive (trace h (client.createConversation user creating otherUserId) w) = 0%nat
          /\ exists u,
               user = Some u
               /\ (client.existingConversationId
                     (fst (h (select_participants_in [user_uid u; otherUserId])
                             (after h [setCreating true] w)))
                   = Some id
                   \/ exists conversation,
                        fst (h (insert_conversation dm (user_uid u))
                               (after h [ setCreating true;
                                          select_participants_in
                                            [user_uid u; otherUserId] ] w))
                        = Ok conversation
                        /\ id = conversations.id conversation
                        /\ In (insert_participants
                                 [ (conversations.id conversation, user_uid u);
                                   (conversations.id conversation, otherUserId) ])
                              (trace h (client.createConversation user creating otherUserId) w))).
Proof.
  intros W h w user creating otherUserId.
  split; [|split].
  - unfold trace, client.createConversation.
    intros [->| ->]; [reflexivity|]. destruct user; reflexivity.
  - intros u -> ->.
    unfold trace, client.createConversation, client.creation_failed, after.
    cbn -[client.existingConversationId].
    destruct (h (setCreating true) w) as [x0 w0]; cbn -[client.existingConversationId].
    destruct (h (select_participants_in [user_uid u; otherUserId]) w0) as [r1 w1];
      cbn -[client.existingConversationId].
    destruct (client.existingConversationId r1) as [id|]; cbn.
    + answer h. reflexivity.
    + destruct (h (insert_conversation dm (user_uid u)) w1) as [r2 w2]; cbn.
      destruct r2 as [conversation|e]; cbn.
      * destruct (h (insert_participants
                       [(conversations.id conversation, user_uid u);
                        (conversations.id conversation, otherUserId)]) w2) as [r3 w3]; cbn.
        destruct r3 as [[]|e]; cbn; answer h; reflexivity.
      * answer h. reflexivity.
  - unfold trace, client.createConversation, client.creation_failed, issued, after.
    destruct user as [u|]; [|settle_run].
    destruct creating; [settle_run|].
    cbn -[client.existingConversationId].
    destruct (h (setCreating true) w) as [x0 w0]; cbn -[client.existingConversationId].
    destruct (h (select_participants_in [user_uid u; otherUserId]) w0) as [r1 w1] eqn:E1;
      cbn -[client.existingConversationId].
    destruct (client.existingConversationId r1) as [id|] eqn:Hexisting; cbn.
    + answer h.
      split; [settle_run|]. split; [settle_run|]. split; [settle_run|].
      intros id' Hin. cbn in Hin.
      repeat (destruct Hin as [Hin|Hin]; try discriminate Hin); try contradiction.
      injection Hin as <-.
      split; [cbn; tauto|]. split; [reflexivity|].
      exists u. split; [reflexivity|]. left. rewrite E1. exact Hexisting.
    + destruct (h (insert_conversation dm (user_uid u)) w1) as [r2 w2] eqn:E2; cbn.
      destruct r2 as [conversation|e]; cbn.
      * destruct (h (insert_participants
                       [(conversations.id conversation, user_uid u);
                        (conversations.id conversation, otherUserId)]) w2) as [r3 w3]; cbn.
        destruct r3 as [[]|e]; cbn; answer h;
          (split; [settle_run|]); (split; [settle_run|]); split.
        all: try (intros rows Hin; cbn in Hin;
                  repeat (destruct Hin as [Hin|Hin]; try discriminate Hin);
                  try contradiction;
                  injection Hin as <-;
                  exists u, conversation; rewrite E1; cbn [snd]; rewrite E2;
                  repeat split).
        intros id' Hin. cbn in Hin.
        repeat (destruct Hin as [Hin|Hin]; try discriminate Hin); try contradiction.
        injection Hin as <-.
        split; [cbn; tauto|]. split; [reflexivity|].
        exists u. split; [reflexivity|]. right.
        exists conversation. rewrite E1. cbn [snd]. rewrite E2.
        repeat split. cbn. tauto.
      * answer h. settle_run.
Qed.

(** ** When the de-duplication finds nothing *)

(** Asked for the same principal twice, the lookup lists a conversation once
    per row of that principal. *)
Lemma participants_in_count_same a visible c :
  count_occ N.eq_dec (participants_in [a; a] visible) c
  = count_occ membership_eq_dec (map membership visible) (c, a).
Proof.
  induction visible as [|r visible IH]; [reflexivity|].
  rewrite participants_in_cons. cbn [map existsb]. unfold membership at 1.
  destruct (N.eqb (cp.user_id r) a) eqn:Ha; cbn [orb].
  - apply N.eqb_eq in Ha.
    destruct (N.eq_dec (cp.conversation_id r) c) as [Hc|Hc].
    + rewrite count_occ_cons_eq by exact Hc.
      rewrite (count_occ_cons_eq membership_eq_dec) by (rewrite Ha, Hc; reflexivity).
      unfold uuid in *; lia.
    + rewrite count_occ_cons_neq by exact Hc.
      rewrite (count_occ_cons_neq membership_eq_dec) by congruence.
      unfold uuid in *; lia.
  - apply N.eqb_neq in Ha.
    rewrite (count_occ_cons_neq membership_eq_dec) by congruence.
    unfold uuid in *; lia.
Qed.

Lemma no_conversation_counted_twice a b visible :
  NoDup (map membership visible) ->
  (a = b \/ forall c, has_row visible c a && has_row visible c b = false) ->
  client.existingConversationId (Ok (participants_in [a; b] visible)) = None.
Proof.
  intros Hnd Hcase. unfold client.existingConversationId.
  destruct (Nat.leb 2 _); [|reflexivity].
  destruct (client.find_count_2 _) as [id|] eqn:Hf; [|reflexivity].
  exfalso. apply find_count_2_sound in Hf.
  destruct Hcase as [<-|Hnone].
  - rewrite participants_in_count_same in Hf.
    pose proof (proj1 (NoDup_count_occ membership_eq_dec _) Hnd (id, a)) as Hle.
    unfold uuid in *. lia.
  - destruct (N.eq_dec a b) as [<-|Hab].
    + rewrite participants_in_count_same in Hf.
      pose proof (proj1 (NoDup_count_occ membership_eq_dec _) Hnd (id, a)) as Hle.
      unfold uuid in *. lia.
    + apply (participants_in_twice a b visible id Hab Hnd) in Hf as [Ha Hb].
      specialize (Hnone id). rewrite Ha, Hb in Hnone. discriminate.
Qed.

(** X4.  Let the lookup return the conversation ids of the visible
    Participant rows of [a] and [b] (one row per conversation and user).  If
    no visible conversation holds a row of [a] and a row of [b], or if [b] is
    [a] itself, [createConversation] reuses nothing: after the lookup it asks
    for a new conversation of type 'dm' created by [a], and it calls
    [onConversationCreated] only after it has issued the insert of the
    participants as well. *)
Theorem createConversation_creates_when_nothing_shared :
  forall (W : Type) (h : backend W) (w : W) (a b : uuid) (visible : list cp.row),
    NoDup (map membership visible) ->
    (forall w', fst (h (select_participants_in [a; b]) w')
                = Ok (participants_in [a; b] visible)) ->
    (a = b \/ forall c, has_row visible c a && has_row visible c b = false) ->
    exists rest,
      trace h (client.createConversation (Some (mkUser a)) false b) w
      = setCreating true :: select_participants_in [a; b]
          :: insert_conversation dm a :: rest
      /\ (issued is_onConversationCreated rest = 1%nat ->
          issued is_insert_participants rest = 1%nat).
Proof.
  intros W h w a b visible Hnd Hh Hcase.
  pose proof (no_conversation_counted_twice a b visible Hnd Hcase) as Hex.
  unfold trace, client.createConversation, client.creation_failed, issued.
  cbn -[client.existingConversationId].
  destruct (h (setCreating true) w) as [x0 w0]; cbn -[client.existingConversationId].
  specialize (Hh w0).
  destruct (h (select_participants_in [a; b]) w0) as [r1 w1].
  cbn -[client.existingConversationId] in *. subst r1. rewrite Hex. cbn.
  destruct (h (insert_conversation dm a) w1) as [r2 w2]; cbn.
  destruct r2 as [conversation|e]; cbn.
  - destruct (h (insert_participants
                   [(conversations.id conversation, a);
                    (conversations.id conversation, b)]) w2) as [r3 w3]; cbn.
    destruct r3 as [[]|e]; cbn; answer h; eexists; split; try reflexivity;
      cbn; intros; try discriminate; reflexivity.
  - answer h. eexists. split; [reflexivity|]. cbn. intros; discriminate.
Qed.

(** X4 for alice starting a conversation with carol, with whom she shares
    none. *)
Lemma createConversation_creates_when_nothing_shared_witness :
  exists rest,
    trace (lookup_backend (tbl_conversation_participants sample_store))
          (client.createConversation (Some (mkUser alice)) false carol) tt
    = setCreating true :: select_participants_in [alice; carol]
        :: insert_conversation dm alice :: rest
    /\ (issued is_onConversationCreated rest = 1%nat ->
        issued is_insert_participants rest = 1%nat).
Proof.
  apply (createConversation_creates_when_nothing_shared unit
           (lookup_backend (tbl_conversation_participants sample_store)) tt
           alice carol (tbl_conversation_participants sample_store)).
  - repeat constructor; cbn; intuition discriminate.
  - reflexivity.
  - right. intros c. unfold has_row. cbn -[N.eqb].
    destruct (N.eqb 10 c); reflexivity.
Defined.

(** ** Which conversation the de-duplication picks *)

Lemma find_first {A : Type} (f : A -> bool) (l : list A) (x : A) :
  find f l = Some x ->
  exists l1 l2, l = l1 ++ x :: l2 /\ f x = true /\ forall y, In y l1 -> f y = false.
Proof.
  induction l as [|a l IH]; cbn; [discriminate|].
  destruct (f a) eqn:Ha.
  - intros Heq. injection Heq as ->. exists [], l. repeat split; [exact Ha | intros y []].
  - intros Hf. destruct (IH Hf) as [l1 [l2 [-> [Hx Hl1]]]].
    exists (a :: l1), l2. repeat split; [exact Hx|].
    intros y [<-|Hy]; [exact Ha | apply Hl1; exact Hy].
Qed.

Lemma first_split (x : uuid) (l : list uuid) :
  In x l -> exists pre post, l = pre ++ x :: post /\ ~ In x pre.
Proof.
  induction l as [|a l IH]; [intros []|].
  destruct (N.eq_dec a x) as [->|Hne].
  - intros _. exists [], l. split; [reflexivity | intros []].
  - intros [Heq|Hin]; [contradiction|].
    destruct (IH Hin) as [pre [post [-> Hpre]]].
    exists (a :: pre), post. split; [reflexivity|].
    intros [Heq|Hin']; [contradiction | apply Hpre; exact Hin'].
Qed.

Lemma NoDup_split_unique (x : uuid) (l1 l2 k1 k2 : list uuid) :
  NoDup (l1 ++ x :: l2) -> l1 ++ x :: l2 = k1 ++ x :: k2 -> l1 = k1.
Proof.
  revert k1. induction l1 as [|a l1 IH]; intros k1 Hnd Heq.
  - destruct k1 as [|b k1]; [reflexivity|].
    cbn in Heq. injection Heq as <- ->. exfalso.
    inversion Hnd as [|? ? Hnotin _]; subst. apply Hnotin.
    apply in_or_app. right. left. reflexivity.
  - destruct k1 as [|b k1].
    + cbn in Heq. injection Heq as -> _. exfalso.
      inversion Hnd as [|? ? Hnotin _]; subst. apply Hnotin.
      apply in_or_app. right. left. reflexivity.
    + cbn in Heq. injection Heq as <- Heq.
      inversion Hnd as [|? ? _ Hnd']; subst.
      f_equal. apply IH; assumption.
Qed.

Lemma bump_keys_present id acc :
  In id (map fst acc) -> map fst (client.bump id acc) = map fst acc.
Proof.
  induction acc as [|[k n] acc IH]; cbn; [intros []|].
  destruct (N.eqb k id) eqn:Hk; cbn; [reflexivity|].
  intros [Heq|Hin].
  - subst k. rewrite N.eqb_refl in Hk. discriminate.
  - rewrite IH by exact Hin. reflexivity.
Qed.

Lemma bump_keys_absent id acc :
  ~ In id (map fst acc) -> map fst (client.bump id acc) = map fst acc ++ [id].
Proof.
  induction acc as [|[k n] acc IH]; cbn; [reflexivity|].
  intros Hnotin. destruct (N.eqb k id) eqn:Hk.
  - apply N.eqb_eq in Hk. exfalso. apply Hnotin. left. exact Hk.
  - cbn. rewrite IH; [reflexivity|]. intros Hin. apply Hnotin. right. exact Hin.
Qed.

(** Counting more rows only adds keys at the end. *)
Lemma fold_bump_keys_prefix rows acc :
  exists extra,
    map fst (fold_left (fun a item => client.bump item a) rows acc)
    = map fst acc ++ extra.
Proof.
  revert acc. induction rows as [|r rows IH]; intros acc; cbn.
  - exists []. rewrite app_nil_r. reflexivity.
  - destruct (IH (client.bump r acc)) as [extra Hx].
    destruct (in_dec N.eq_dec r (map fst acc)) as [Hin|Hnotin].
    + rewrite bump_keys_present in Hx by exact Hin. exists extra. exact Hx.
    + rewrite bump_keys_absent in Hx by exact Hnotin.
      exists (r :: extra). rewrite Hx, <- app_assoc. reflexivity.
Qed.

Lemma fold_bump_keys_only rows acc k :
  In k (map fst (fold_left (fun a item => client.bump item a) rows acc)) ->
  In k (map fst acc) \/ In k rows.
Proof.
  revert acc. induction rows as [|r rows IH]; intros acc; cbn; [auto|].
  intros Hin. apply IH in Hin as [Hin|Hin]; [|auto].
  apply bump_keys in Hin as [->|Hin]; auto.
Qed.

Lemma fold_bump_keys_all rows acc k :
  In k rows ->
  In k (map fst (fold_left (fun a item => client.bump item a) rows acc)).
Proof.
  revert acc. induction rows as [|r rows IH]; intros acc; cbn; [intros []|].
  intros [->|Hin]; [|apply IH; exact Hin].
  destruct (fold_bump_keys_prefix rows (client.bump k acc)) as [extra ->].
  apply in_or_app. left. apply bump_keys. left. reflexivity.
Qed.

(** The keys of the counts, around the first row of [id]: the keys of the
    rows before it, then [id]. *)
Lemma conversationCounts_keys_split pre id post :
  ~ In id pre ->
  exists extra,
    map fst (client.conversationCounts (pre ++ id :: post))
    = map fst (client.conversationCounts pre) ++ id :: extra.
Proof.
  intros Hpre. unfold client.conversationCounts.
  rewrite fold_left_app. cbn [fold_left].
  destruct (fold_bump_keys_prefix post
              (client.bump id (fold_left (fun a item => client.bump item a) pre [])))
    as [extra ->].
  rewrite bump_keys_absent.
  - exists extra. rewrite <- app_assoc. reflexivity.
  - intros Hin. apply fold_bump_keys_only in Hin as [[]|Hin]. contradiction.
Qed.

(** X5.  The conversation the lookup reuses is the first one, in the order
    in which the conversations first appear among the fetched rows, that is
    listed exactly twice: no conversation whose first row comes earlier is
    listed twice.  Nothing is reused when fewer than two rows were fetched or
    no conversation is listed exactly twice. *)
Theorem existingConversationId_is_first_listed_twice :
  forall rows : list uuid,
    match client.existingConversationId (Ok rows) with
    | Some id =>
        count_occ N.eq_dec rows id = 2%nat
        /\ exists pre post,
             rows = pre ++ id :: post
             /\ ~ In id pre
             /\ forall c, In c pre -> count_occ N.eq_dec rows c <> 2%nat
    | None =>
        (List.length rows < 2)%nat
        \/ forall c, count_occ N.eq_dec rows c <> 2%nat
    end.
Proof.
  intros rows. unfold client.existingConversationId.
  destruct (Nat.leb 2 (List.length rows)) eqn:Hlen.
  - destruct (client.find_count_2 (client.conversationCounts rows)) as [id|] eqn:Hf.
    + pose proof (find_count_2_sound rows id Hf) as Hid. split; [exact Hid|].
      assert (Hin : In id rows).
      { apply (count_occ_In N.eq_dec). unfold uuid in *. lia. }
      destruct (first_split id rows Hin) as [pre [post [Hrows Hpre]]].
      exists pre, post. split; [exact Hrows|]. split; [exact Hpre|].
      intros c Hc Hc2.
      unfold client.find_count_2 in Hf.
      destruct (find _ (client.conversationCounts rows)) as [[k n]|] eqn:Hfind;
        [|discriminate].
      cbn in Hf. injection Hf as ->.
      destruct (find_first _ _ _ Hfind) as [l1 [l2 [Hcounts [Hn Hl1]]]].
      cbn in Hn. apply N.eqb_eq in Hn. subst n.
      pose proof (conversationCounts_keys_NoDup rows) as Hnd.
      destruct (conversationCounts_keys_split pre id post Hpre) as [extra Hkeys].
      rewrite <- Hrows in Hkeys.
      assert (Hl1keys : map fst l1 = map fst (client.conversationCounts pre)).
      { apply (NoDup_split_unique id _ (map fst l2) _ extra).
        - rewrite Hcounts, map_app in Hnd. exact Hnd.
        - rewrite <- Hkeys, Hcounts, map_app. reflexivity. }
      assert (Hck : In c (map fst l1)).
      { rewrite Hl1keys. apply fold_bump_keys_all. exact Hc. }
      apply in_map_iff in Hck as [[c' m] [Hfst Hcm]]. cbn in Hfst. subst c'.
      pose proof (Hl1 _ Hcm) as Hm. cbn in Hm. apply N.eqb_neq in Hm.
      assert (Hcount : count_of c (client.conversationCounts rows) = m).
      { apply count_of_In; [exact Hnd|]. rewrite Hcounts.
        apply in_or_app. left. exact Hcm. }
      rewrite count_of_conversationCounts in Hcount.
      apply Hm. rewrite <- Hcount. unfold uuid in *. rewrite Hc2. reflexivity.
    + right. intros c Hc.
      destruct (find_count_2_complete rows c Hc) as [id Hid]. congruence.
  - left. apply Nat.leb_gt. exact Hlen.
Qed.

(** ** Writes under another identity *)

Lemma sql_eq_sym a b : sql_eq a b = sql_eq b a.
Proof. destruct a, b; cbn; try reflexivity. apply N.eqb_sym. Qed.

Lemma sql_eq_None_r a : sql_eq a None = false.
Proof. destruct a; reflexivity. Qed.

(** The SELECT policy of the first migration on [conversation_participants]
    selects from its own table: each level of nesting asks for the same view
    one level down, for every caller and whatever the table holds. *)
Lemma initial_participants_view_never s uid :
  forall fuel, read_participants fuel initial_catalog s uid = Err policy_recursion.
Proof.
  intros fuel. induction fuel as [|n IH].
  - reflexivity.
  - unfold read_participants in *. cbn [rls_views v_conversation_participants].
    unfold visible_rows, row_security.
    cbn [on_conversation_participants initial_catalog applicable filter pol_cmd pol_roles
         command_eqb role_applies andb initial_schema.view_participants
         initial_schema.add_participants permissive_or pol_qual].
    rewrite IH. reflexivity.
Qed.

Lemma initial_send_check_never fuel s uid r :
  check_insert_message fuel initial_catalog s uid r = Err policy_recursion.
Proof.
  unfold check_insert_message, check_insert, row_security.
  cbn [on_messages initial_catalog applicable filter pol_cmd pol_roles
       command_eqb role_applies andb initial_schema.view_messages
       initial_schema.send_messages initial_schema.update_own_messages
       permissive_or pol_qual].
  change (v_conversation_participants (rls_views fuel initial_catalog s uid))
    with (read_participants fuel initial_catalog s uid).
  rewrite initial_participants_view_never. reflexivity.
Qed.

Lemma raspy_spark_send_check_foreign fuel s uid r :
  sql_eq uid (Some (messages.sender_id r)) = false ->
  check_insert_message (S fuel) raspy_spark_catalog s uid r = Ok false.
Proof.
  intros Hne. unfold check_insert_message, check_insert, row_security.
  cbn [on_messages raspy_spark_catalog applicable filter pol_cmd pol_roles command_eqb
       role_applies andb initial_schema.send_messages initial_schema.update_own_messages
       raspy_spark.view_messages permissive_or pol_qual].
  change (v_conversation_participants (rls_views (S fuel) raspy_spark_catalog s uid))
    with (read_participants (S fuel) raspy_spark_catalog s uid).
  rewrite raspy_spark_read_participants. cbn [rbind].
  rewrite Hne. reflexivity.
Qed.

(** X6.  In each catalog the migrations leave, and whatever the tables
    hold, no insert under another identity is allowed.  A Message whose
    [sender_id] is not the caller is denied under the policies of
    [raspy_spark]; under those of the first and of the last migration the
    statement does not get as far as a decision.  A Conversation whose
    [created_by] is not the caller and a Profile whose [id] is not the caller
    are denied by the INSERT check, the caller without a session included.  A
    caller without a session is never allowed to insert a Participant. *)
Theorem no_insert_under_another_identity :
  forall (fuel : nat) (s : Store) (uid : auth_uid),
    (forall r, sql_eq uid (Some (messages.sender_id r)) = false ->
               Forall (fun cat => allowed (check_insert_message fuel cat s uid r) = false)
                      catalog_states
               /\ check_insert_message (S fuel) raspy_spark_catalog s uid r = Ok false)
    /\ (forall r, sql_eq uid (conversations.created_by r) = false ->
                  Forall (fun cat =>
                            check_insert (on_conversations cat) fuel cat s uid r = Ok false)
                         catalog_states)
    /\ (forall r, sql_eq uid (Some (profiles.id r)) = false ->
                  Forall (fun cat =>
                            check_insert (on_profiles cat) fuel cat s uid r = Ok false)
                         catalog_states)
    /\ (forall r,
          Forall (fun cat => allowed (check_insert_participant fuel cat s None r) = false)
                 catalog_states).
Proof.
  intros fuel s uid. split; [|split; [|split]].
  - intros r Hne. split; [|apply raspy_spark_send_check_foreign; exact Hne].
    unfold catalog_states.
    apply Forall_cons; [|apply Forall_cons; [|apply Forall_cons; [|apply Forall_nil]]].
    + rewrite initial_send_check_never. reflexivity.
    + destruct fuel as [|n].
      * reflexivity.
      * rewrite raspy_spark_send_check_foreign by exact Hne. reflexivity.
    + destruct uid as [p|]; [|reflexivity].
      rewrite final_send_check_never. reflexivity.
  - intros r Hne. unfold catalog_states, check_insert.
    repeat (apply Forall_cons; [cbn -[sql_eq]; rewrite Hne; reflexivity|]).
    apply Forall_nil.
  - intros r Hne. unfold catalog_states, check_insert.
    repeat (apply Forall_cons; [cbn -[sql_eq]; rewrite Hne; reflexivity|]).
    apply Forall_nil.
  - intros r. unfold catalog_states, check_insert_participant, check_insert.
    apply Forall_cons; [|apply Forall_cons; [|apply Forall_cons; [|apply Forall_nil]]].
    + cbn. destruct (v_conversations (rls_views fuel initial_catalog s None))
        as [convs|e]; cbn; [|reflexivity].
      assert (Hnone : sql_in (cp.conversation_id r) (created_ids_of None convs) = false).
      { unfold created_ids_of. induction convs as [|c convs IH]; [reflexivity|].
        cbn [filter]. rewrite sql_eq_None_r. exact IH. }
      rewrite Hnone. reflexivity.
    + cbn.
      assert (Hnone : sql_in (cp.conversation_id r)
                        (raspy_spark.get_created_conversation_ids s None) = false).
      { unfold raspy_spark.get_created_conversation_ids, created_ids_of.
        induction (tbl_conversations s) as [|c convs IH]; [reflexivity|].
        cbn [filter]. rewrite sql_eq_None_r. exact IH. }
      rewrite Hnone. reflexivity.
    + reflexivity.
Qed.

(** ** The policies of [raspy_spark], for every caller *)

Lemma conversation_ids_of_None rows : conversation_ids_of None rows = [].
Proof.
  unfold conversation_ids_of. induction rows as [|r rows IH]; [reflexivity|].
  cbn [filter sql_eq]. exact IH.
Qed.

Lemma sql_in_user_conversation_ids_any s uid c :
  sql_in c (raspy_spark.get_user_conversation_ids s uid) = participates s uid c.
Proof.
  destruct uid as [p|].
  - apply sql_in_user_conversation_ids.
  - unfold raspy_spark.get_user_conversation_ids.
    rewrite conversation_ids_of_None. reflexivity.
Qed.

Lemma raspy_spark_read_profiles fuel s uid :
  read_profiles (S fuel) raspy_spark_catalog s uid = Ok (tbl_profiles s).
Proof. apply read_profiles_all. right. left. reflexivity. Qed.

Lemma raspy_spark_read_messages_any fuel s uid :
  read_messages (S fuel) raspy_spark_catalog s uid
  = Ok (filter (fun r => participates s uid (messages.conversation_id r))
               (tbl_messages s)).
Proof.
  rewrite raspy_spark_read_messages. f_equal. apply filter_ext.
  intros r. apply sql_in_user_conversation_ids_any.
Qed.

(** X7.  Under the policies of [raspy_spark], for any caller and at any
    nesting bound from one on, a read is answered: it returns every profile,
    and of the conversations, participants and messages exactly the rows of
    the conversations the caller participates in, in table order; a caller
    without a session gets none of these. *)
Theorem raspy_spark_reads :
  forall (fuel : nat) (s : Store) (uid : auth_uid),
    read_profiles (S fuel) raspy_spark_catalog s uid = Ok (tbl_profiles s)
    /\ read_conversations (S fuel) raspy_spark_catalog s uid
       = Ok (filter (fun r => participates s uid (conversations.id r))
                    (tbl_conversations s))
    /\ read_participants (S fuel) raspy_spark_catalog s uid
       = Ok (filter (fun r => participates s uid (cp.conversation_id r))
                    (tbl_conversation_participants s))
    /\ read_messages (S fuel) raspy_spark_catalog s uid
       = Ok (filter (fun r => participates s uid (messages.conversation_id r))
                    (tbl_messages s))
    /\ read_conversations (S fuel) raspy_spark_catalog s None = Ok []
    /\ read_participants (S fuel) raspy_spark_catalog s None = Ok []
    /\ read_messages (S fuel) raspy_spark_catalog s None = Ok [].
Proof.
  intros fuel s uid.
  rewrite !raspy_spark_read_conversations, !raspy_spark_read_participants,
    !raspy_spark_read_messages.
  split; [|split; [|split; [|split; [|split; [|split]]]]].
  - apply raspy_spark_read_profiles.
  - f_equal. apply filter_ext. intros r. apply sql_in_user_conversation_ids_any.
  - f_equal. apply filter_ext. intros r. apply sql_in_user_conversation_ids_any.
  - f_equal. apply filter_ext. intros r. apply sql_in_user_conversation_ids_any.
  - f_equal. rewrite <- (filter_none (tbl_conversations s)).
    apply filter_ext. intros r. apply (sql_in_user_conversation_ids_any s None).
  - f_equal. rewrite <- (filter_none (tbl_conversation_participants s)).
    apply filter_ext. intros r. apply (sql_in_user_conversation_ids_any s None).
  - f_equal. rewrite <- (filter_none (tbl_messages s)).
    apply filter_ext. intros r. apply (sql_in_user_conversation_ids_any s None).
Qed.

(** X8.  Under the policies of [raspy_spark], the insert of a message by a
    signed-in caller [p] appends one row (fresh id, the clock as [created_at],
    not deleted, not edited) when the sender is [p], [p] participates in the
    conversation, and the conversation and the sender's profile exist; with a
    foreign sender or without membership it is refused as a row-security
    violation, and in every refusal the tables stay as they are. *)
Theorem raspy_spark_insert_message :
  forall (fuel : nat) (s : Store) (p : uuid) (now : timestamp) (next : uuid)
         (content : jsstring) (cid sid : uuid) (ty : message_type),
    db_insert_message (S fuel) raspy_spark_catalog (mkWorld s (Some p) now next)
                      content cid sid ty
    = if N.eqb p sid && is_participant s p cid
      then if conversation_exists s cid && profile_exists s sid
           then (Ok tt,
                 mkWorld
                   (mkStore (tbl_profiles s) (tbl_conversations s)
                      (tbl_conversation_participants s)
                      (tbl_messages s
                         ++ [messages.mk next cid sid content (Some ty) now None
                               (Some false)]))
                   (Some p) (now + 1) (next + 1))
           else (Err foreign_key_violation, mkWorld s (Some p) (now + 1) next)
      else (Err row_security_violation, mkWorld s (Some p) (now + 1) next).
Proof.
  intros fuel s p now next content cid sid ty.
  unfold db_insert_message. cbn [db session clock next_uuid].
  rewrite raspy_spark_send_check. cbn [messages.sender_id messages.conversation_id].
  destruct (N.eqb p sid && is_participant s p cid); reflexivity.
Qed.

(** ** The policies of the last migration, for every table and caller *)

(** The policies of the last migration are all [TO authenticated]: for a
    caller without a session none applies, and nothing is visible. *)
Lemma final_reads_without_session fuel s :
  read_conversations (S fuel) final_catalog s None = Ok []
  /\ read_participants (S fuel) final_catalog s None = Ok []
  /\ read_messages (S fuel) final_catalog s None = Ok [].
Proof.
  unfold read_conversations, read_participants, read_messages.
  cbn. rewrite !filter_none. repeat split.
Qed.

Lemma final_read_conversations_no_row fuel s uid rows :
  read_conversations fuel final_catalog s uid = Ok rows -> rows = [].
Proof.
  destruct uid as [p|].
  - rewrite final_conversations_view_never. discriminate.
  - destruct fuel as [|n]; [discriminate|].
    rewrite (proj1 (final_reads_without_session n s)). congruence.
Qed.

Lemma final_read_participants_no_row fuel s uid rows :
  read_participants fuel final_catalog s uid = Ok rows -> rows = [].
Proof.
  destruct uid as [p|].
  - rewrite final_participants_view_never. discriminate.
  - destruct fuel as [|n]; [discriminate|].
    rewrite (proj1 (proj2 (final_reads_without_session n s))). congruence.
Qed.

Lemma final_read_messages_no_row fuel s uid rows :
  read_messages fuel final_catalog s uid = Ok rows -> rows = [].
Proof.
  destruct uid as [p|].
  - rewrite final_messages_view_never. discriminate.
  - destruct fuel as [|n]; [discriminate|].
    rewrite (proj2 (proj2 (final_reads_without_session n s))). congruence.
Qed.

(** X9.  Under the policies of the last migration no read of
    [conversations], [conversation_participants] or [messages] ever returns a
    row, whoever the caller, whatever the tables hold and whatever the
    nesting bound: a read either fails or returns the empty list. *)
Theorem final_reads_return_no_row :
  forall (fuel : nat) (s : Store) (uid : auth_uid),
    match read_conversations fuel final_catalog s uid with
    | Ok rows => rows = []
    | Err _ => True
    end
    /\ match read_participants fuel final_catalog s uid with
       | Ok rows => rows = []
       | Err _ => True
       end
    /\ match read_messages fuel final_catalog s uid with
       | Ok rows => rows = []
       | Err _ => True
       end.
Proof.
  intros fuel s uid. repeat split.
  - destruct (read_conversations fuel final_catalog s uid) eqn:Hr; [|exact I].
    apply (final_read_conversations_no_row fuel s uid). exact Hr.
  - destruct (read_participants fuel final_catalog s uid) eqn:Hr; [|exact I].
    apply (final_read_participants_no_row fuel s uid). exact Hr.
  - destruct (read_messages fuel final_catalog s uid) eqn:Hr; [|exact I].
    apply (final_read_messages_no_row fuel s uid). exact Hr.
Qed.

Lemma final_insert_message_refused fuel w content cid sid ty :
  exists e, db_insert_message fuel final_catalog w content cid sid ty = (Err e, tick w).
Proof.
  unfold db_insert_message.
  destruct (session w) as [p|].
  - rewrite final_send_check_never. exists policy_recursion. reflexivity.
  - exists row_security_violation. reflexivity.
Qed.

(** X10.  Against the database with the policies of the last migration,
    every insert of a message is refused, and so a call of [sendMessage]
    leaves all four tables as they are, never clears the typed text and
    never gets to update the conversation, whoever calls it with whatever
    text. *)
Theorem final_policies_refuse_every_send :
  forall (fuel : nat) (w : World),
    (forall content cid sid ty,
        exists e,
          db_insert_message fuel final_catalog w content cid sid ty = (Err e, tick w))
    /\ (forall conversationId user message sending,
          db (final_world (rls_backend fuel final_catalog)
                (client.sendMessage conversationId user message sending) w)
          = db w
          /\ issued is_setMessage
               (trace (rls_backend fuel final_catalog)
                  (client.sendMessage conversationId user message sending) w) = 0%nat
          /\ issued is_update_conversation
               (trace (rls_backend fuel final_catalog)
                  (client.sendMessage conversationId user message sending) w) = 0%nat).
Proof.
  intros fuel w. split.
  - intros. apply final_insert_message_refused.
  - intros conversationId user message sending.
    unfold final_world, trace, client.sendMessage, issued.
    destruct user as [u|]; cbn -[db_insert_message]; [|repeat split].
    destruct (negb (truthy (trim message)) || sending);
      cbn -[db_insert_message]; [repeat split|].
    destruct (final_insert_message_refused fuel (tick (tick w)) (trim message)
                conversationId (user_uid u) text) as [e He].
    rewrite He. cbn. repeat split.
Qed.

(** ** Creating a conversation against the database *)

(** No membership row refers to conversation [c]: the caller is not found
    among its participants. *)
Lemma unused_id_not_in (c : uuid) (uid : auth_uid) (rows : list cp.row) :
  existsb (fun r => N.eqb (cp.conversation_id r) c) rows = false ->
  sql_in c (conversation_ids_of uid rows) = false.
Proof.
  intros Hunused. unfold sql_in, conversation_ids_of.
  induction rows as [|r rows IH]; [reflexivity|].
  cbn [existsb] in Hunused. apply orb_false_elim in Hunused as [Hr Hrows].
  cbn [filter]. destruct (sql_eq (Some (cp.user_id r)) uid).
  - cbn [map existsb]. rewrite N.eqb_sym, Hr. cbn [orb]. apply IH. exact Hrows.
  - apply IH. exact Hrows.
Qed.

(** The new conversation does not pass both the INSERT check and the SELECT
    policies applied to the returned row. *)
Lemma returned_conversation_not_visible cat fuel s uid (row : conversations.row) :
  In cat catalog_states ->
  existsb (fun r => N.eqb (cp.conversation_id r) (conversations.id row))
          (tbl_conversation_participants s) = false ->
  (checked <- row_security INSERT (on_conversations cat) s (rls_views fuel cat s uid) uid ;;
   visible <- row_security SELECT (on_conversations cat) s (rls_views fuel cat s uid) uid ;;
   Ok (checked row && visible row)) <> Ok true.
Proof.
  intros Hcat Hunused.
  destruct Hcat as [<-|[<-|[<-|[]]]].
  - unfold row_security.
    cbn [on_conversations initial_catalog applicable filter pol_cmd pol_roles
         command_eqb role_applies andb initial_schema.view_conversations
         initial_schema.create_conversations permissive_or pol_qual rbind].
    change (v_conversation_participants (rls_views fuel initial_catalog s uid))
      with (read_participants fuel initial_catalog s uid).
    rewrite initial_participants_view_never. discriminate.
  - cbn -[rls_views sql_eq sql_in raspy_spark.get_user_conversation_ids].
    unfold raspy_spark.get_user_conversation_ids.
    rewrite (unused_id_not_in _ uid _ Hunused).
    rewrite orb_false_r, andb_false_r. discriminate.
  - destruct uid as [p|].
    + unfold row_security.
      cbn [on_conversations final_catalog applicable filter pol_cmd pol_roles
           command_eqb role_applies andb graceful_king.view_conversations
           initial_schema.create_conversations permissive_or pol_qual rbind].
      change (v_conversation_participants (rls_views fuel final_catalog s (Some p)))
        with (read_participants fuel final_catalog s (Some p)).
      rewrite final_participants_view_never. discriminate.
    + cbn -[andb sql_eq]. rewrite andb_false_r. discriminate.
Qed.

Lemma insert_conversation_refused cat fuel w ty by_ :
  In cat catalog_states ->
  next_uuid_unused w = true ->
  exists e, db_insert_conversation fuel cat w ty by_ = (Err e, tick w).
Proof.
  intros Hcat Hunused. unfold next_uuid_unused in Hunused.
  apply negb_true_iff in Hunused.
  unfold db_insert_conversation.
  pose proof (returned_conversation_not_visible cat fuel (db w) (session w)
                (conversations.mk (next_uuid w) None ty (Some by_) (clock w) (clock w))
                Hcat Hunused) as Hno.
  cbv zeta.
  destruct (rbind _ _) as [[|]|e].
  - exfalso. apply Hno. reflexivity.
  - exists row_security_violation. reflexivity.
  - exists e. reflexivity.
Qed.

(** X11.  In each catalog the migrations leave, the client's insert of a new
    conversation (with the row returned) is refused as long as no membership
    row refers to the id the new conversation would get: the returned row has
    to pass the SELECT policy, which asks for a membership the creator cannot
    have yet.  So a call of [createConversation] leaves all four tables as
    they are and never inserts participants; when it tries to insert a
    conversation it ends with the error toast. *)
Theorem createConversation_never_creates :
  forall (cat : Catalog) (fuel : nat) (w : World)
         (user : option User) (creating : bool) (otherUserId : uuid),
    In cat catalog_states ->
    next_uuid_unused w = true ->
    (forall ty by_, exists e, db_insert_conversation fuel cat w ty by_ = (Err e, tick w))
    /\ db (final_world (rls_backend fuel cat)
             (client.createConversation user creating otherUserId) w)
       = db w
    /\ issued is_insert_participants
         (trace (rls_backend fuel cat)
            (client.createConversation user creating otherUserId) w) = 0%nat
    /\ issued is_insert_conversation
         (trace (rls_backend fuel cat)
            (client.createConversation user creating otherUserId) w)
       = issued is_toast_destructive
           (trace (rls_backend fuel cat)
              (client.createConversation user creating otherUserId) w).
Proof.
  intros cat fuel w user creating otherUserId Hcat Hunused.
  split; [intros; apply insert_conversation_refused; assumption|].
  unfold final_world, trace, client.createConversation, client.creation_failed, issued.
  destruct user as [u|]; [|repeat split].
  destruct creating; [repeat split|].
  cbn -[client.existingConversationId db_insert_conversation db_select_participants_in].
  unfold db_select_participants_in.
  cbn -[client.existingConversationId db_insert_conversation].
  destruct (client.existingConversationId _) as [id|];
    cbn -[db_insert_conversation]; [repeat split|].
  destruct (insert_conversation_refused cat fuel (tick (tick w)) dm (user_uid u) Hcat)
    as [e He]; [exact Hunused|].
  rewrite He. cbn. repeat split.
Qed.

(** X11 for alice asking for a conversation with carol, against the policies
    of the last migration. *)
Lemma createConversation_never_creates_witness :
  (forall ty by_,
      exists e, db_insert_conversation 3 final_catalog alice_world ty by_
                = (Err e, tick alice_world))
  /\ db (final_world (rls_backend 3 final_catalog)
           (client.createConversation (Some (mkUser alice)) false carol) alice_world)
     = db alice_world
  /\ issued is_insert_participants
       (trace (rls_backend 3 final_catalog)
          (client.createConversation (Some (mkUser alice)) false carol) alice_world)
     = 0%nat
  /\ issued is_insert_conversation
       (trace (rls_backend 3 final_catalog)
          (client.createConversation (Some (mkUser alice)) false carol) alice_world)
     = issued is_toast_destructive
         (trace (rls_backend 3 final_catalog)
            (client.createConversation (Some (mkUser alice)) false carol) alice_world).
Proof.
  apply (createConversation_never_creates final_catalog 3 alice_world
           (Some (mkUser alice)) false carol).
  - right. right. left. reflexivity.
  - reflexivity.
Defined.

(** ** Provisioning *)

Lemma existsb_id_false_notin (l : list profiles.row) (i : uuid) :
  existsb (fun p => N.eqb (profiles.id p) i) l = false ->
  ~ In i (map profiles.id l).
Proof.
  intros Hex Hin. apply in_map_iff in Hin as [p [Hp Hin]].
  assert (Ht : existsb (fun p => N.eqb (profiles.id p) i) l = true).
  { apply existsb_exists. exists p. split; [exact Hin|]. rewrite Hp. apply N.eqb_refl. }
  congruence.
Qed.

Lemma existsb_username_false_notin (l : list profiles.row) (name : string) :
  existsb (fun p => String.eqb (profiles.username p) name) l = false ->
  ~ In name (map profiles.username l).
Proof.
  intros Hex Hin. apply in_map_iff in Hin as [p [Hp Hin]].
  assert (Ht : existsb (fun p => String.eqb (profiles.username p) name) l = true).
  { apply existsb_exists. exists p. split; [exact Hin|]. rewrite Hp. apply String.eqb_refl. }
  congruence.
Qed.

Lemma NoDup_snoc {A : Type} (l : list A) (x : A) :
  NoDup l -> ~ In x l -> NoDup (l ++ [x]).
Proof.
  intros Hnd Hx. induction Hnd as [|a l Ha Hnd IH]; cbn.
  - constructor; [intros [] | constructor].
  - constructor.
    + intros Hin. apply in_app_or in Hin as [Hin|[<-|[]]].
      * contradiction.
      * apply Hx. left. reflexivity.
    + apply IH. intros Hin. apply Hx. right. exact Hin.
Qed.

(** X12.  What the provisioning trigger does with a new principal.  When it
    succeeds it adds exactly one profile, last, with the principal's id, the
    requested username (metadata key 'username') or else the part of the
    email before '@', the requested display name or else that same part,
    status 'online' and no avatar; it touches no other table; and it keeps
    ids and usernames of profiles unique.  It fails with a not-null violation
    only when no username is requested and the principal has no email, and
    with a uniqueness violation only when the id or the username is taken. *)
Theorem handle_new_user_outcome :
  forall (now : timestamp) (s : Store) (NEW : auth_users.row),
    match handle_new_user now s NEW with
    | Ok s' =>
        exists name,
          new_username NEW = Some name
          /\ tbl_profiles s'
             = tbl_profiles s
               ++ [profiles.mk (auth_users.id NEW) name (new_display_name NEW) None
                     (Some "online") (Some now) now now]
          /\ tbl_conversations s' = tbl_conversations s
          /\ tbl_conversation_participants s' = tbl_conversation_participants s
          /\ tbl_messages s' = tbl_messages s
          /\ (profile_keys_unique s -> profile_keys_unique s')
    | Err e =>
        (e = not_null_violation
         /\ json_get_text (auth_users.raw_user_meta_data NEW) "username" = None
         /\ auth_users.email NEW = None)
        \/ (e = unique_violation
            /\ exists name,
                 new_username NEW = Some name
                 /\ (profile_exists s (auth_users.id NEW) = true
                     \/ existsb (fun p => String.eqb (profiles.username p) name)
                                (tbl_profiles s) = true))
    end.
Proof.
  intros now s NEW. unfold handle_new_user, insert_profile.
  fold (new_username NEW). fold (new_display_name NEW).
  destruct (new_username NEW) as [name|] eqn:Hname.
  - fold (profile_exists s (auth_users.id NEW)).
    destruct (profile_exists s (auth_users.id NEW)) eqn:Hid; cbn [orb].
    + right. split; [reflexivity|]. exists name. auto.
    + destruct (existsb (fun p => String.eqb (profiles.username p) name) (tbl_profiles s))
        eqn:Hu.
      * right. split; [reflexivity|]. exists name. auto.
      * exists name. cbn [tbl_profiles tbl_conversations tbl_conversation_participants
                            tbl_messages].
        repeat split.
        -- destruct H as [Hids _]. cbn [tbl_profiles]. rewrite map_app. cbn [map profiles.id].
           apply NoDup_snoc; [exact Hids|].
           apply existsb_id_false_notin. exact Hid.
        -- destruct H as [_ Hnames]. cbn [tbl_profiles]. rewrite map_app.
           cbn [map profiles.username].
           apply NoDup_snoc; [exact Hnames|].
           apply existsb_username_false_notin. exact Hu.
  - left. split; [reflexivity|].
    unfold new_username, email_local_part in Hname.
    destruct (json_get_text (auth_users.raw_user_meta_data NEW) "username");
      [discriminate|].
    destruct (auth_users.email NEW); [discriminate|]. auto.
Qed.

(** ** The local part of an email *)

Lemma split_on_first (d : ascii) (s : string) :
  exists first rest, split_on d s = first :: rest.
Proof.
  induction s as [|c s [first [rest IH]]]; cbn.
  - exists EmptyString, []. reflexivity.
  - destruct (Ascii.eqb c d).
    + exists EmptyString, (split_on d s). reflexivity.
    + rewrite IH. exists (String c first), rest. reflexivity.
Qed.

(** X13.  The part of a text before its first delimiter, as the trigger
    takes it from the email with '@': it holds no delimiter, and the text is
    either that part alone (no delimiter in it) or that part, the delimiter
    and a rest.  So a defaulted username never holds an '@'. *)
Theorem split_part_1_is_the_prefix_before_the_delimiter :
  forall (s : string) (d : ascii),
    ~ In d (list_ascii_of_string (split_part s d 1))
    /\ ((s = split_part s d 1 /\ ~ In d (list_ascii_of_string s))
        \/ exists rest, s = (split_part s d 1 ++ String d rest)%string).
Proof.
  intros s d. unfold split_part. cbn [pred nth].
  induction s as [|c s [IHno IHsplit]].
  - cbn. split; [intros [] | left; split; [reflexivity | intros []]].
  - cbn [split_on]. destruct (Ascii.eqb c d) eqn:Hc.
    + apply Ascii.eqb_eq in Hc. subst c. cbn. split; [intros []|].
      right. exists s. reflexivity.
    + apply Ascii.eqb_neq in Hc.
      destruct (split_on_first d s) as [first [rest Hs]].
      rewrite Hs in *. cbn [nth] in *. split.
      * cbn. intros [Heq|Hin]; [congruence | contradiction].
      * destruct IHsplit as [[Heq Hnone]|[rest' Heq]].
        -- left. split; [cbn; rewrite <- Heq; reflexivity|].
           cbn. intros [Heq'|Hin]; [congruence | contradiction].
        -- right. exists rest'. cbn. rewrite <- Heq. reflexivity.
Qed.

(** ** The order of the message list *)

Lemma insert_by_created_at_perm m l :
  Permutation (insert_by_created_at m l) (m :: l).
Proof.
  induction l as [|a l IH]; cbn.
  - apply Permutation_refl.
  - destruct (N.leb (messages.created_at m) (messages.created_at a)).
    + apply Permutation_refl.
    + apply perm_trans with (a :: m :: l).
      * apply perm_skip. exact IH.
      * apply perm_swap.
Qed.

Lemma order_by_created_at_perm l : Permutation (order_by_created_at l) l.
Proof.
  induction l as [|a l IH]; cbn.
  - apply perm_nil.
  - apply perm_trans with (a :: order_by_created_at l).
    + apply insert_by_created_at_perm.
    + apply perm_skip. exact IH.
Qed.

Lemma insert_by_created_at_sorted m l :
  StronglySorted created_before l ->
  StronglySorted created_before (insert_by_created_at m l).
Proof.
  intros Hs. induction Hs as [|a l Hs IH Ha]; cbn.
  - constructor; constructor.
  - destruct (N.leb (messages.created_at m) (messages.created_at a)) eqn:Hle.
    + apply N.leb_le in Hle. constructor.
      * constructor; assumption.
      * constructor.
        -- exact Hle.
        -- eapply Forall_impl; [|exact Ha].
           intros b Hb. unfold created_before in *. lia.
    + apply N.leb_gt in Hle. constructor; [exact IH|].
      apply Forall_forall. intros b Hb.
      apply insert_by_created_at_In in Hb as [->|Hb].
      * unfold created_before. lia.
      * rewrite Forall_forall in Ha. apply Ha. exact Hb.
Qed.

Lemma order_by_created_at_sorted l :
  StronglySorted created_before (order_by_created_at l).
Proof.
  induction l as [|a l IH]; cbn.
  - constructor.
  - apply insert_by_created_at_sorted. exact IH.
Qed.

(** X14.  The rows the message query of [fetchMessages] selects are the
    visible rows of the conversation with the asked [is_deleted] flag, each
    exactly as often as it is visible, ordered by [created_at] ascending;
    the list shown has one entry per selected row, in that order. *)
Theorem selected_messages_sorted_permutation :
  forall (visible : list messages.row) (profs : list profiles.row)
         (cid : uuid) (del : bool),
    Permutation (selected_messages visible cid del)
                (filter (matches_filters cid del) visible)
    /\ StronglySorted created_before (selected_messages visible cid del)
    /\ StronglySorted (fun a b => (mv_created_at a <= mv_created_at b)%N)
                      (messages_query visible profs cid del)
    /\ map mv_id (messages_query visible profs cid del)
       = map messages.id (selected_messages visible cid del).
Proof.
  intros visible profs cid del. unfold messages_query, selected_messages.
  split; [apply order_by_created_at_perm|].
  split; [apply order_by_created_at_sorted|].
  split.
  - pose proof (order_by_created_at_sorted (filter (matches_filters cid del) visible)) as Hs.
    induction Hs as [|a l Hs IH Ha]; cbn.
    + constructor.
    + constructor; [exact IH|].
      apply Forall_forall. intros v Hv. apply in_map_iff in Hv as [b [<- Hb]].
      rewrite Forall_forall in Ha. exact (Ha b Hb).
  - rewrite map_map. reflexivity.
Qed.

(** ** Names shown by the components *)

Lemma js_or_literal_not_empty a literal c rest :
  literal = String c rest ->
  exists c' rest', js_or_literal a literal = String c' rest'.
Proof.
  intros ->. destruct a as [[|c' s]|]; cbn; eauto.
Qed.

(** X15.  The names the components show.  For the sender of a message and
    for the other participant of a DM: the display name when it is present
    and not empty, else the username when it is present and not empty, else
    'Unknown User'.  For a group: its name when present and not empty, else
    'Group Chat'.  In the dialog's user list: the display name when present
    and not empty, else the username, with no last resort.  So the first two
    are never empty, and the third is not as long as the username is not. *)
Theorem shown_names_are_never_empty :
  (forall message : message_view,
      exists c rest, MessagesList.getDisplayName message = String c rest)
  /\ (forall conversation : ConversationsList.Conversation,
        exists c rest, ConversationsList.getConversationName conversation = String c rest)
  /\ (forall message : message_view,
        MessagesList.getDisplayName message
        = match mv_profiles message with
          | Some (_, Some (String c rest)) => String c rest
          | Some (String c rest, _) => String c rest
          | _ => "Unknown User"
          end)
  /\ (forall conversation : ConversationsList.Conversation,
        ConversationsList.getConversationName conversation
        = match ConversationsList.type conversation with
          | group =>
              match ConversationsList.name conversation with
              | Some (String c rest) => String c rest
              | _ => "Group Chat"
              end
          | dm =>
              match ConversationsList.other_user conversation with
              | Some (_, Some (String c rest)) => String c rest
              | Some (String c rest, _) => String c rest
              | _ => "Unknown User"
              end
          end)
  /\ (forall user : NewConversationDialog.User,
        NewConversationDialog.getDisplayName user
        = match NewConversationDialog.display_name user with
          | Some (String c rest) => String c rest
          | _ => NewConversationDialog.username user
          end)
  /\ (forall (user : NewConversationDialog.User) c rest,
        NewConversationDialog.username user = String c rest ->
        exists c' rest', NewConversationDialog.getDisplayName user = String c' rest').
Proof.
  split; [|split; [|split; [|split; [|split]]]].
  - intros message. unfold MessagesList.getDisplayName.
    eapply js_or_literal_not_empty. reflexivity.
  - intros conversation. unfold ConversationsList.getConversationName.
    destruct (ConversationsList.type conversation);
      eapply js_or_literal_not_empty; reflexivity.
  - intros message. unfold MessagesList.getDisplayName.
    destruct (mv_profiles message) as [[[|c rest] [[|c' rest']|]]|]; reflexivity.
  - intros conversation. unfold ConversationsList.getConversationName.
    destruct (ConversationsList.type conversation).
    + destruct (ConversationsList.other_user conversation)
        as [[[|c rest] [[|c' rest']|]]|]; reflexivity.
    + destruct (ConversationsList.name conversation) as [[|c rest]|]; reflexivity.
  - intros user. unfold NewConversationDialog.getDisplayName.
    destruct (NewConversationDialog.display_name user) as [[|c rest]|]; reflexivity.
  - intros user c rest Hu. unfold NewConversationDialog.getDisplayName.
    rewrite Hu. destruct (NewConversationDialog.display_name user) as [[|c' s]|];
      cbn; eauto.
Qed.

(** X16.  For a DM, the name shown is taken from the first embedded
    participant who is not the signed-in user: with the user and one other
    principal embedded, in either order, it is the other principal's display
    name when that is present and non-empty, and their username otherwise. *)
Theorem dm_is_named_after_the_other_participant :
  forall (user : User) (conv : ConversationsList.Conversation)
         (other : uuid) (own : option (string * option string))
         (c : ascii) (rest : string) (d : option string),
    ConversationsList.type conv = dm ->
    other <> user_uid user ->
    (ConversationsList.conversation_participants conv
     = [ ConversationsList.mkParticipant (user_uid user) own;
         ConversationsList.mkParticipant other (Some (String c rest, d)) ]
     \/ ConversationsList.conversation_participants conv
        = [ ConversationsList.mkParticipant other (Some (String c rest, d));
            ConversationsList.mkParticipant (user_uid user) own ]) ->
    ConversationsList.getConversationName (ConversationsList.processConversation user conv)
    = js_or_literal d (String c rest).
Proof.
  intros user conv other own c rest d Hdm Hother Hparts.
  unfold ConversationsList.getConversationName, ConversationsList.processConversation.
  rewrite Hdm. cbn [ConversationsList.type ConversationsList.other_user].
  apply N.eqb_neq in Hother.
  destruct Hparts as [-> | ->]; cbn [find ConversationsList.user_id];
    rewrite ?N.eqb_refl, Hother; cbn;
    destruct d as [[|c' s]|]; reflexivity.
Qed.

(** X16 for alice's DM with bob, who has no display name. *)
Lemma dm_is_named_after_the_other_participant_witness :
  ConversationsList.getConversationName
    (ConversationsList.processConversation (mkUser alice)
       (ConversationsList.mkConversation 10 None dm 0 (Some alice)
          [ ConversationsList.mkParticipant alice (Some ("alice", Some "Alice A."));
            ConversationsList.mkParticipant bob (Some ("bob", None)) ]
          None))
  = js_or_literal None "bob".
Proof.
  apply (dm_is_named_after_the_other_participant (mkUser alice)
           (ConversationsList.mkConversation 10 None dm 0 (Some alice)
              [ ConversationsList.mkParticipant alice (Some ("alice", Some "Alice A."));
                ConversationsList.mkParticipant bob (Some ("bob", None)) ]
              None)
           bob (Some ("alice", Some "Alice A.")) "b"%char "ob" None).
  - reflexivity.
  - discriminate.
  - left. reflexivity.
Defined.

(** ** Running a migration again *)

Lemma has_policy_drop_same {R : Type} (name : string) (ps : list (policy R)) :
  has_policy name (drop_policy name ps) = false.
Proof.
  unfold has_policy, drop_policy. induction ps as [|p ps IH]; [reflexivity|].
  cbn [filter]. destruct (String.eqb (pol_name p) name) eqn:Hn; cbn [negb].
  - exact IH.
  - cbn [existsb]. rewrite Hn, IH. reflexivity.
Qed.

Lemma has_policy_drop_absent {R : Type} (name other : string) (ps : list (policy R)) :
  has_policy name ps = false -> has_policy name (drop_policy other ps) = false.
Proof.
  unfold has_policy, drop_policy. induction ps as [|p ps IH]; [reflexivity|].
  cbn [existsb filter]. intros H. apply orb_false_iff in H as [Hp Hps].
  destruct (negb (String.eqb (pol_name p) other)).
  - cbn [existsb]. rewrite Hp, (IH Hps). reflexivity.
  - exact (IH Hps).
Qed.

Lemma has_policy_drop_other {R : Type} (name other : string) (ps : list (policy R)) :
  String.eqb name other = false ->
  has_policy name (drop_policy other ps) = has_policy name ps.
Proof.
  intros Hne. unfold has_policy, drop_policy. induction ps as [|p ps IH]; [reflexivity|].
  cbn [existsb filter].
  destruct (String.eqb (pol_name p) other) eqn:Ho; cbn [negb].
  - rewrite IH. apply String.eqb_eq in Ho. rewrite Ho.
    rewrite String.eqb_sym, Hne. reflexivity.
  - cbn [existsb]. rewrite IH. reflexivity.
Qed.

Lemma has_policy_app {R : Type} (name : string) (ps qs : list (policy R)) :
  has_policy name (ps ++ qs) = has_policy name ps || has_policy name qs.
Proof. apply existsb_app. Qed.

Lemma create_policy_fresh {R : Type} (p : policy R) (ps : list (policy R)) :
  has_policy (pol_name p) ps = false -> create_policy p ps = Ok (ps ++ [p]).
Proof. unfold create_policy, has_policy. intros ->. reflexivity. Qed.

Lemma create_policy_taken {R : Type} (p : policy R) (ps : list (policy R)) :
  has_policy (pol_name p) ps = true -> create_policy p ps = Err duplicate_object.
Proof. unfold create_policy, has_policy. intros ->. reflexivity. Qed.

Lemma drop_policy_app {R : Type} (name : string) (ps qs : list (policy R)) :
  drop_policy name (ps ++ qs) = drop_policy name ps ++ drop_policy name qs.
Proof. apply filter_app. Qed.

Lemma drop_policy_absent {R : Type} (name : string) (ps : list (policy R)) :
  has_policy name ps = false -> drop_policy name ps = ps.
Proof.
  unfold has_policy, drop_policy. induction ps as [|p ps IH]; [reflexivity|].
  cbn [existsb filter]. intros H. apply orb_false_iff in H as [Hp Hps].
  rewrite Hp. cbn [negb]. rewrite (IH Hps). reflexivity.
Qed.

Lemma raspy_spark_migration_result cat :
  run_statements raspy_spark.migration cat = Ok (after_raspy_spark cat).
Proof.
  unfold raspy_spark.migration. cbn [run_statements].
  unfold drop_on_conversations, drop_on_conversation_participants, drop_on_messages.
  cbn [rbind on_profiles on_conversations on_conversation_participants on_messages].
  unfold create_on_conversations.
  cbn [on_profiles on_conversations on_conversation_participants on_messages].
  rewrite create_policy_fresh by apply has_policy_drop_same. cbn [rbind].
  unfold create_on_conversation_participants.
  cbn [on_profiles on_conversations on_conversation_participants on_messages].
  rewrite create_policy_fresh
    by (apply has_policy_drop_absent; apply has_policy_drop_same).
  cbn [rbind on_profiles on_conversations on_conversation_participants on_messages].
  rewrite create_policy_fresh.
  - cbn [rbind]. unfold create_on_messages.
    cbn [on_profiles on_conversations on_conversation_participants on_messages].
    rewrite create_policy_fresh by apply has_policy_drop_same.
    cbn [rbind]. unfold after_raspy_spark. rewrite <- app_assoc. reflexivity.
  - rewrite has_policy_app, has_policy_drop_same. reflexivity.
Qed.

Lemma after_raspy_spark_again cat :
  after_raspy_spark (after_raspy_spark cat) = after_raspy_spark cat.
Proof.
  unfold after_raspy_spark.
  cbn [on_profiles on_conversations on_conversation_participants on_messages].
  rewrite !drop_policy_app.
  rewrite (drop_policy_absent _ (drop_policy "Users can view conversations they participate in" _))
    by apply has_policy_drop_same.
  rewrite (drop_policy_absent _ (drop_policy "Users can view messages from their conversations" _))
    by apply has_policy_drop_same.
  rewrite (drop_policy_absent "Users can view participants of their conversations"
             (drop_policy "Users can add participants to conversations they created" _))
    by (apply has_policy_drop_absent; apply has_policy_drop_same).
  rewrite (drop_policy_absent "Users can add participants to conversations they created"
             (drop_policy "Users can add participants to conversations they created" _))
    by apply has_policy_drop_same.
  assert (E1 : drop_policy "Users can view conversations they participate in"
                 [raspy_spark.view_conversations] = []) by reflexivity.
  assert (E2 : drop_policy "Users can add participants to conversations they created"
                 (drop_policy "Users can view participants of their conversations"
                    [raspy_spark.view_participants; raspy_spark.add_participants]) = [])
    by reflexivity.
  assert (E3 : drop_policy "Users can view messages from their conversations"
                 [raspy_spark.view_messages] = []) by reflexivity.
  rewrite E1, E2, E3, !app_nil_r. reflexivity.
Qed.

Lemma graceful_king_refuses_its_own_policy cat :
  has_policy "Users can view participants of conversations they join"
             (on_conversation_participants cat) = true ->
  run_statements graceful_king.migration cat = Err duplicate_object.
Proof.
  intros Hhas. unfold graceful_king.migration. cbn [run_statements].
  unfold drop_on_conversations, drop_on_conversation_participants, drop_on_messages.
  cbn [rbind on_profiles on_conversations on_conversation_participants on_messages].
  unfold create_on_conversation_participants at 1.
  cbn [on_profiles on_conversations on_conversation_participants on_messages].
  rewrite create_policy_taken; [reflexivity|].
  cbn [pol_name graceful_king.view_participants].
  rewrite !has_policy_drop_other by reflexivity. exact Hhas.
Qed.

Lemma graceful_king_leaves_its_policy cat cat' :
  run_statements graceful_king.migration cat = Ok cat' ->
  has_policy "Users can view participants of conversations they join"
             (on_conversation_participants cat') = true.
Proof.
  unfold graceful_king.migration. cbn [run_statements].
  unfold drop_on_conversations, drop_on_conversation_participants, drop_on_messages,
    create_on_conversations, create_on_conversation_participants, create_on_messages.
  cbn [rbind on_profiles on_conversations on_conversation_participants on_messages].
  destruct (create_policy graceful_king.view_participants _) as [ps1|e] eqn:H1;
    cbn [rbind on_profiles on_conversations on_conversation_participants on_messages];
    [|discriminate].
  destruct (create_policy graceful_king.join_or_add ps1) as [ps2|e] eqn:H2;
    cbn [rbind on_profiles on_conversations on_conversation_participants on_messages];
    [|discriminate].
  destruct (create_policy graceful_king.view_conversations _) as [ps3|e];
    cbn [rbind on_profiles on_conversations on_conversation_participants on_messages];
    [|discriminate].
  destruct (create_policy graceful_king.view_messages _) as [ps4|e];
    cbn [rbind on_profiles on_conversations on_conversation_participants on_messages];
    [|discriminate].
  destruct (create_policy graceful_king.send_messages ps4) as [ps5|e];
    cbn [rbind on_profiles on_conversations on_conversation_participants on_messages];
    [|discriminate].
  intros Heq. injection Heq as <-. cbn [on_conversation_participants].
  unfold create_policy in H1, H2.
  destruct (existsb _ _) in H1; [discriminate|]. injection H1 as <-.
  destruct (existsb _ _) in H2; [discriminate|]. injection H2 as <-.
  rewrite !has_policy_app. cbn. rewrite orb_true_r. reflexivity.
Qed.

(** X17.  The statements of [raspy_spark] succeed on every catalog, and
    running them again on the result changes nothing: they drop the very
    names they create.  The statements of [graceful_king] drop only the older
    names, so on any catalog they have produced a second run fails with
    "policy already exists", as it does on the final catalog. *)
Theorem rerunning_the_fix_migrations :
  (forall cat,
      run_statements raspy_spark.migration cat = Ok (after_raspy_spark cat)
      /\ run_statements raspy_spark.migration (after_raspy_spark cat)
         = Ok (after_raspy_spark cat))
  /\ (forall cat cat',
        run_statements graceful_king.migration cat = Ok cat' ->
        run_statements graceful_king.migration cat' = Err duplicate_object)
  /\ run_statements graceful_king.migration final_catalog = Err duplicate_object.
Proof.
  split; [|split].
  - intros cat. split; [apply raspy_spark_migration_result|].
    rewrite raspy_spark_migration_result, after_raspy_spark_again. reflexivity.
  - intros cat cat' Hrun. apply graceful_king_refuses_its_own_policy.
    eapply graceful_king_leaves_its_policy. exact Hrun.
  - apply graceful_king_refuses_its_own_policy. reflexivity.
Qed.

(** ** What a send can change, in any catalog *)

Lemma update_conversation_keeps_db cat fuel w t cid :
  In cat catalog_states ->
  db (snd (db_update_conversation fuel cat w t cid)) = db w.
Proof.
  intros Hcat. apply update_conversation_changes_nothing.
  apply no_update_policy_on_conversations. exact Hcat.
Qed.

Lemma insert_message_outcome fuel cat w content cid sid ty :
  db (snd (db_insert_message fuel cat w content cid sid ty)) = db w
  \/ db (snd (db_insert_message fuel cat w content cid sid ty))
     = mkStore (tbl_profiles (db w)) (tbl_conversations (db w))
               (tbl_conversation_participants (db w))
               (tbl_messages (db w)
                  ++ [messages.mk (next_uuid w) cid sid content (Some ty) (clock w) None
                        (Some false)]).
Proof.
  unfold db_insert_message.
  destruct (check_insert_message _ _ _ _ _) as [[|]|e]; [|left; reflexivity..].
  destruct (conversation_exists (db w) cid && profile_exists (db w) sid).
  - right. reflexivity.
  - left. reflexivity.
Qed.

(** X18.  In each catalog the migrations leave, a call of [sendMessage]
    against the database never changes a row of [conversations] (so no
    [updated_at] ever moves), of [profiles] or of
    [conversation_participants]; the [messages] table either stays as it is
    or gets one row more, at the end, holding the trimmed text, the user's
    id as sender, the conversation at hand, type 'text', no edit time and the
    deleted flag false. *)
Theorem sendMessage_changes_at_most_one_message :
  forall (cat : Catalog) (fuel : nat) (w : World)
         (conversationId : uuid) (user : option User) (message : jsstring) (sending : bool),
    In cat catalog_states ->
    tbl_conversations
      (db (final_world (rls_backend fuel cat)
             (client.sendMessage conversationId user message sending) w))
    = tbl_conversations (db w)
    /\ tbl_profiles
         (db (final_world (rls_backend fuel cat)
                (client.sendMessage conversationId user message sending) w))
       = tbl_profiles (db w)
    /\ tbl_conversation_participants
         (db (final_world (rls_backend fuel cat)
                (client.sendMessage conversationId user message sending) w))
       = tbl_conversation_participants (db w)
    /\ (tbl_messages
          (db (final_world (rls_backend fuel cat)
                 (client.sendMessage conversationId user message sending) w))
        = tbl_messages (db w)
        \/ exists u id now,
             user = Some u
             /\ tbl_messages
                  (db (final_world (rls_backend fuel cat)
                         (client.sendMessage conversationId user message sending) w))
                = tbl_messages (db w)
                  ++ [messages.mk id conversationId (user_uid u) (trim message)
                        (Some text) now None (Some false)]).
Proof.
  intros cat fuel w conversationId user message sending Hcat.
  unfold final_world, client.sendMessage.
  destruct user as [u|]; cbn -[db_insert_message db_update_conversation];
    [|repeat split; left; reflexivity].
  destruct (negb (truthy (trim message)) || sending);
    cbn -[db_insert_message db_update_conversation];
    [repeat split; left; reflexivity|].
  pose proof (insert_message_outcome fuel cat (tick (tick w)) (trim message)
                conversationId (user_uid u) text) as Hins.
  destruct (db_insert_message fuel cat (tick (tick w)) (trim message)
              conversationId (user_uid u) text) as [r w2].
  cbn [snd] in Hins.
  destruct r as [[]|e]; cbn -[db_update_conversation].
  - pose proof (update_conversation_keeps_db cat fuel (tick (tick w2))
                  (clock w2 + 1)%N conversationId Hcat) as Hupd.
    destruct (db_update_conversation fuel cat (tick (tick w2)) (clock w2 + 1)%N
                conversationId) as [r3 w3].
    cbn [snd] in Hupd. cbn. rewrite Hupd. cbn [db tick].
    destruct Hins as [-> | ->]; cbn; repeat split.
    + left. reflexivity.
    + right. exists u, (next_uuid w), (clock w + 1 + 1)%N. split; reflexivity.
  - destruct Hins as [-> | ->]; cbn; repeat split.
    + left. reflexivity.
    + right. exists u, (next_uuid w), (clock w + 1 + 1)%N. split; reflexivity.
Qed.

(** X18 for alice sending "hi" under the policies of [raspy_spark]. *)
Lemma sendMessage_changes_at_most_one_message_witness :
  tbl_conversations
    (db (final_world (rls_backend 1 raspy_spark_catalog)
           (client.sendMessage 10 (Some (mkUser alice)) [104; 105] false) alice_world))
  = tbl_conversations (db alice_world)
  /\ tbl_profiles
       (db (final_world (rls_backend 1 raspy_spark_catalog)
              (client.sendMessage 10 (Some (mkUser alice)) [104; 105] false) alice_world))
     = tbl_profiles (db alice_world)
  /\ tbl_conversation_participants
       (db (final_world (rls_backend 1 raspy_spark_catalog)
              (client.sendMessage 10 (Some (mkUser alice)) [104; 105] false) alice_world))
     = tbl_conversation_participants (db alice_world)
  /\ (tbl_messages
        (db (final_world (rls_backend 1 raspy_spark_catalog)
               (client.sendMessage 10 (Some (mkUser alice)) [104; 105] false) alice_world))
      = tbl_messages (db alice_world)
      \/ exists u id now,
           Some (mkUser alice) = Some u
           /\ tbl_messages
                (db (final_world (rls_backend 1 raspy_spark_catalog)
                       (client.sendMessage 10 (Some (mkUser alice)) [104; 105] false)
                       alice_world))
              = tbl_messages (db alice_world)
                ++ [messages.mk id 10 (user_uid u) (trim [104; 105])
                      (Some text) now None (Some false)]).
Proof.
  apply (sendMessage_changes_at_most_one_message raspy_spark_catalog 1 alice_world
           10 (Some (mkUser alice)) [104; 105] false).
  right. left. reflexivity.
Defined.

(** ** The message list under the policies of [raspy_spark] *)

Lemma filter_matches_of_visible (g : uuid -> bool) (cid : uuid) (del : bool)
  (l : list messages.row) :
  filter (matches_filters cid del) (filter (fun r => g (messages.conversation_id r)) l)
  = if g cid then filter (matches_filters cid del) l else [].
Proof.
  induction l as [|m l IH].
  - destruct (g cid); reflexivity.
  - cbn [filter].
    destruct (matches_filters cid del m) eqn:Hm.
    + assert (Hc : messages.conversation_id m = cid).
      { unfold matches_filters in Hm. apply andb_prop in Hm as [Hc _].
        apply N.eqb_eq. exact Hc. }
      rewrite Hc. destruct (g cid) eqn:Hg.
      * cbn [filter]. rewrite Hm, IH. reflexivity.
      * exact IH.
    + destruct (g (messages.conversation_id m)).
      * cbn [filter]. rewrite Hm. exact IH.
      * exact IH.
Qed.

Lemma raspy_spark_select_messages fuel w cid del :
  db_select_messages (S fuel) raspy_spark_catalog w cid del
  = (Ok (if participates (db w) (session w) cid
         then messages_query (tbl_messages (db w)) (tbl_profiles (db w)) cid del
         else []),
     tick w).
Proof.
  unfold db_select_messages.
  rewrite raspy_spark_read_messages_any, raspy_spark_read_profiles.
  cbn -[messages_query]. do 2 f_equal.
  unfold messages_query, selected_messages.
  rewrite (filter_matches_of_visible (participates (db w) (session w))).
  destruct (participates (db w) (session w) cid); reflexivity.
Qed.

(** X19.  Against the database with the policies of [raspy_spark],
    [fetchMessages] never fails.  What it shows is made of rows of
    [messages], each with the username and display name of its sender's
    profile: for a conversation the caller participates in, the rows of that
    conversation whose deleted flag is false, each once, ordered by
    [created_at] ascending (in whatever order for equal times); for any other
    conversation, nothing. *)
Theorem raspy_spark_fetchMessages :
  forall (fuel : nat) (w : World) (conversationId : uuid),
    exists rows : list messages.row,
      trace (rls_backend (S fuel) raspy_spark_catalog)
            (client.fetchMessages conversationId) w
      = [ select_messages conversationId false;
          setMessages (map (to_view (tbl_profiles (db w))) rows);
          setLoading false ]
      /\ Permutation rows
           (if participates (db w) (session w) conversationId
            then filter (matches_filters conversationId false) (tbl_messages (db w))
            else [])
      /\ StronglySorted created_before rows.
Proof.
  intros fuel w conversationId.
  exists (if participates (db w) (session w) conversationId
          then selected_messages (tbl_messages (db w)) conversationId false
          else []).
  split; [|split].
  - unfold trace, client.fetchMessages.
    cbn -[db_select_messages messages_query].
    rewrite raspy_spark_select_messages. cbn -[messages_query].
    destruct (participates (db w) (session w) conversationId); reflexivity.
  - destruct (participates (db w) (session w) conversationId).
    + apply order_by_created_at_perm.
    + apply perm_nil.
  - destruct (participates (db w) (session w) conversationId).
    + apply order_by_created_at_sorted.
    + constructor.
Qed.

(** ** The policies of the first migration *)

(** X20.  The policies of the first migration already have the defect the
    later migrations set out to remove.  As soon as
    [conversation_participants] holds a row, no nesting bound lets a read of
    it be answered, for any caller; the same holds for a read of
    [conversations] or [messages] that holds a row, and for the check on a
    message the caller sends under its own identity. *)
Theorem initial_policies_never_answer :
  forall (fuel : nat) (s : Store) (uid : auth_uid),
    tbl_conversation_participants s <> [] ->
    read_participants fuel initial_catalog s uid = Err policy_recursion
    /\ (tbl_conversations s <> [] ->
        read_conversations fuel initial_catalog s uid = Err policy_recursion)
    /\ (tbl_messages s <> [] ->
        read_messages fuel initial_catalog s uid = Err policy_recursion)
    /\ (forall m : messages.row,
          sql_eq uid (Some (messages.sender_id m)) = true ->
          check_insert_message fuel initial_catalog s uid m = Err policy_recursion).
Proof.
  intros fuel s uid Hne.
  pose proof (initial_participants_view_never s uid) as Hnever.
  split; [apply Hnever|]. split; [|split].
  - intros Hc. destruct fuel as [|n]; [reflexivity|].
    unfold read_conversations. cbn [rls_views v_conversations].
    unfold visible_rows, row_security.
    cbn [on_conversations initial_catalog applicable filter pol_cmd pol_roles
         command_eqb role_applies andb initial_schema.view_conversations
         initial_schema.create_conversations permissive_or pol_qual].
    change (v_conversation_participants (rls_views n initial_catalog s uid))
      with (read_participants n initial_catalog s uid).
    rewrite Hnever. reflexivity.
  - intros Hm. destruct fuel as [|n]; [reflexivity|].
    unfold read_messages. cbn [rls_views v_messages].
    unfold visible_rows, row_security.
    cbn [on_messages initial_catalog applicable filter pol_cmd pol_roles
         command_eqb role_applies andb initial_schema.view_messages
         initial_schema.send_messages initial_schema.update_own_messages
         permissive_or pol_qual].
    change (v_conversation_participants (rls_views n initial_catalog s uid))
      with (read_participants n initial_catalog s uid).
    rewrite Hnever. reflexivity.
  - intros m Hsender. apply initial_send_check_never.
Qed.

(** X20 for alice and the sample tables. *)
Lemma initial_policies_never_answer_witness :
  read_participants 3 initial_catalog sample_store (Some alice) = Err policy_recursion
  /\ (tbl_conversations sample_store <> [] ->
      read_conversations 3 initial_catalog sample_store (Some alice)
      = Err policy_recursion)
  /\ (tbl_messages sample_store <> [] ->
      read_messages 3 initial_catalog sample_store (Some alice) = Err policy_recursion)
  /\ (forall m : messages.row,
        sql_eq (Some alice) (Some (messages.sender_id m)) = true ->
        check_insert_message 3 initial_catalog sample_store (Some alice) m
        = Err policy_recursion).
Proof.
  apply (initial_policies_never_answer 3 sample_store (Some alice)).
  discriminate.
Defined.

(** ** A message sent, then listed *)

Lemma insert_by_created_at_before_last (x m : messages.row) (l : list messages.row) :
  (messages.created_at x < messages.created_at m)%N ->
  insert_by_created_at x (l ++ [m]) = insert_by_created_at x l ++ [m].
Proof.
  intros Hlt. induction l as [|y l IH]; cbn [app insert_by_created_at].
  - apply N.lt_le_incl, N.leb_le in Hlt. rewrite Hlt. reflexivity.
  - destruct (N.leb (messages.created_at x) (messages.created_at y)).
    + reflexivity.
    + rewrite IH. reflexivity.
Qed.

(** A row created after all the others is listed last. *)
Lemma order_by_created_at_newest (m : messages.row) (l : list messages.row) :
  Forall (fun x => (messages.created_at x < messages.created_at m)%N) l ->
  order_by_created_at (l ++ [m]) = order_by_created_at l ++ [m].
Proof.
  unfold order_by_created_at. induction 1 as [|x l Hx Hl IH]; cbn [app fold_right].
  - reflexivity.
  - rewrite IH. apply insert_by_created_at_before_last. exact Hx.
Qed.

Lemma update_conversation_keeps_session cat fuel w t cid :
  session (snd (db_update_conversation fuel cat w t cid)) = session w.
Proof.
  unfold db_update_conversation. cbv zeta. destruct (rbind _ _); reflexivity.
Qed.

(** X21.  Sending, then listing, under the policies of [raspy_spark].  Let
    the signed-in user participate in the conversation, let the conversation
    and the user's profile exist, let the typed text hold more than
    whitespace, and let no stored message be dated after the present clock.
    Then the list [fetchMessages] shows after [sendMessage] is the list it
    showed before, followed by one entry: the trimmed text, sent by the user,
    not edited. *)
Theorem raspy_spark_sent_message_is_listed_last :
  forall (fuel : nat) (w : World) (p : uuid) (conversationId : uuid) (message : jsstring),
    session w = Some p ->
    is_participant (db w) p conversationId = true ->
    conversation_exists (db w) conversationId = true ->
    profile_exists (db w) p = true ->
    truthy (trim message) = true ->
    Forall (fun m => (messages.created_at m <= clock w)%N) (tbl_messages (db w)) ->
    exists (before : list message_view) (id : uuid) (at_ : timestamp),
      trace (rls_backend (S fuel) raspy_spark_catalog)
            (client.fetchMessages conversationId) w
      = [ select_messages conversationId false; setMessages before; setLoading false ]
      /\ trace (rls_backend (S fuel) raspy_spark_catalog)
               (client.fetchMessages conversationId)
               (final_world (rls_backend (S fuel) raspy_spark_catalog)
                  (client.sendMessage conversationId (Some (mkUser p)) message false) w)
         = [ select_messages conversationId false;
             setMessages
               (before
                ++ [ mkMessageView id (trim message) p at_ None
                       (option_map
                          (fun r => (profiles.username r, profiles.display_name r))
                          (find (fun r => N.eqb (profiles.id r) p)
                                (tbl_profiles (db w)))) ]);
             setLoading false ].
Proof.
  intros fuel w p cid message Hsession Hmember Hconv Hprof Htext Hpast.
  exists (messages_query (tbl_messages (db w)) (tbl_profiles (db w)) cid false),
         (next_uuid w), (clock w + 1 + 1)%N.
  split.
  - unfold trace, client.fetchMessages.
    cbn -[db_select_messages messages_query].
    rewrite raspy_spark_select_messages.
    rewrite Hsession. cbn [participates]. rewrite Hmember. reflexivity.
  - unfold final_world, client.sendMessage.
    cbn -[db_insert_message db_update_conversation db_select_messages trim truthy
          messages_query].
    rewrite Htext. cbn -[db_insert_message db_update_conversation db_select_messages trim
                         messages_query].
    destruct w as [s sess now next]. cbn [db session clock next_uuid tick] in *.
    subst sess.
    unfold db_insert_message. cbn [db session clock next_uuid tick].
    rewrite raspy_spark_send_check.
    cbn [messages.sender_id messages.conversation_id].
    rewrite N.eqb_refl, Hmember, Hconv, Hprof.
    cbn -[db_update_conversation db_select_messages trim messages_query].
    match goal with
    | |- context [db_update_conversation ?f ?c ?w0 ?t ?i] =>
        pose proof (update_conversation_keeps_db c f w0 t i) as Hkeep;
        pose proof (update_conversation_keeps_session c f w0 t i) as Hsess;
        destruct (db_update_conversation f c w0 t i) as [r1 w1] eqn:Hupd
    end.
    cbn [snd db session] in Hkeep, Hsess.
    specialize (Hkeep (or_intror (or_introl eq_refl))).
    unfold trace, client.fetchMessages.
    cbn -[db_select_messages messages_query trim].
    rewrite raspy_spark_select_messages.
    cbn [tick db session]. rewrite Hkeep, Hsess.
    cbn [tick with_db db session participates tbl_messages tbl_profiles].
    unfold is_participant in *. cbn [tbl_conversation_participants].
    rewrite Hmember.
    cbn -[messages_query trim].
    do 3 f_equal.
    unfold messages_query, selected_messages.
    rewrite filter_app. cbn [filter].
    unfold matches_filters at 2.
    cbn [messages.conversation_id messages.is_deleted Bool.eqb].
    rewrite N.eqb_refl. cbn [andb].
    rewrite order_by_created_at_newest.
    + rewrite map_app. reflexivity.
    + apply Forall_forall. intros x Hx. apply filter_In in Hx as [Hx _].
      rewrite Forall_forall in Hpast. specialize (Hpast x Hx).
      cbn [messages.created_at]. lia.
Qed.

(** X21 for alice sending "hi" to conversation 10. *)
Lemma raspy_spark_sent_message_is_listed_last_witness :
  exists (before : list message_view) (id : uuid) (at_ : timestamp),
    trace (rls_backend 1 raspy_spark_catalog) (client.fetchMessages 10) alice_world
    = [ select_messages 10 false; setMessages before; setLoading false ]
    /\ trace (rls_backend 1 raspy_spark_catalog) (client.fetchMessages 10)
             (final_world (rls_backend 1 raspy_spark_catalog)
                (client.sendMessage 10 (Some (mkUser alice)) [104; 105] false)
                alice_world)
       = [ select_messages 10 false;
           setMessages
             (before
              ++ [ mkMessageView id (trim [104; 105]) alice at_ None
                     (option_map
                        (fun r => (profiles.username r, profiles.display_name r))
                        (find (fun r => N.eqb (profiles.id r) alice)
                              (tbl_profiles (db alice_world)))) ]);
           setLoading false ].
Proof.
  apply (raspy_spark_sent_message_is_listed_last 0 alice_world alice 10 [104; 105]);
    try reflexivity.
  constructor; [cbn; lia | constructor].
Defined.
